(** * contrib/reuse/reuse-headers.py: the copyright-attribution pipeline

    A shallow embedding of [reuse-headers.py] and the proofs of its
    specification.  The script asks git for the tracked files, asks git for
    the (author, timestamp) log of every file that is not excluded, groups
    the years per canonical author and calls [reuse addheader] once per
    ownership record.

    Modelling conventions:
    - a Python [str] is a [string] whose characters are the code points
      below 256;
    - a Python [int] is a [Z];
    - a raised exception is the [Raise] case of [result];
    - the insertion-ordered [dict] of the aggregation is an association list
      in insertion order;
    - the iteration order of a Python [set] is not fixed by the language: it
      is a parameter [set_iter] of the model, constrained only to enumerate
      the distinct elements once each;
    - the local time zone is a parameter [utcoffset] (seconds east of UTC at
      a given instant);
    - the external processes are a parameter [run_process], which answers a
      command line given the command lines executed before it. *)

From Stdlib Require Import ZArith NArith List String Ascii Bool Lia.
From Stdlib Require Import Permutation Sorted.
Import ListNotations.

Open Scope string_scope.
Open Scope list_scope.

(** ** Exceptions *)

Inductive exn : Type :=
| CalledProcessError   (* subprocess.run(..., check=True), non-zero exit *)
| IndexError           (* list index out of range *)
| ValueError.          (* int() of a malformed literal, year out of range *)

Inductive result (A : Type) : Type :=
| Ok (a : A)
| Raise (e : exn).

Arguments Ok {A} a.
Arguments Raise {A} e.

Definition bind {A B : Type} (c : result A) (k : A -> result B) : result B :=
  match c with
  | Ok a => k a
  | Raise e => Raise e
  end.

Declare Scope result_scope.
Delimit Scope result_scope with result.
Notation "x <- c ;; k" := (bind c (fun x => k))
  (at level 61, c at next level, right associativity) : result_scope.

(** A list comprehension whose element expression may raise: the elements
    are evaluated left to right and the first exception wins. *)
Fixpoint comprehension {A B : Type} (f : A -> result B) (l : list A)
  : result (list B) :=
  match l with
  | [] => Ok []
  | x :: l' =>
      (y <- f x ;; ys <- comprehension f l' ;; Ok (y :: ys))%result
  end.

(** ** The Python built-ins the script uses *)

Module Py.

(** [str.isspace] on one character, for the code points below 256. *)
Definition isspace (c : ascii) : bool :=
  let n := N_of_ascii c in
  ((9 <=? n) && (n <=? 13) || (28 <=? n) && (n <=? 32)
   || (n =? 133) || (n =? 160))%N.

(** [head_cons c l] puts [c] in front of the first string of [l]. *)
Definition head_cons (c : ascii) (l : list string) : list string :=
  match l with
  | h :: t => String c h :: t
  | [] => [String c ""]
  end.

(** [s.split(sep)] for a one-character separator: never the empty list. *)
Fixpoint split_on (sep : ascii) (s : string) : list string :=
  match s with
  | "" => [""]
  | String c s' =>
      if Ascii.eqb c sep then "" :: split_on sep s'
      else head_cons c (split_on sep s')
  end.

Definition starts_word (s : string) : bool :=
  match s with
  | "" => false
  | String c _ => negb (isspace c)
  end.

(** [s.split()]: runs of whitespace separate the words, and leading and
    trailing whitespace produce no empty word. *)
Fixpoint split (s : string) : list string :=
  match s with
  | "" => []
  | String c s' =>
      if isspace c then split s'
      else if starts_word s' then head_cons c (split s')
      else String c "" :: split s'
  end.

(** The whitespace [int] removes around a literal: that of [isspace] but
    for the four separators 28 to 31. *)
Definition int_space (c : ascii) : bool :=
  let n := N_of_ascii c in
  ((9 <=? n) && (n <=? 13) || (n =? 32) || (n =? 133) || (n =? 160))%N.

Fixpoint lstrip (s : string) : string :=
  match s with
  | "" => ""
  | String c s' => if int_space c then lstrip s' else s
  end.

Fixpoint rstrip (s : string) : string :=
  match s with
  | "" => ""
  | String c s' =>
      match rstrip s' with
      | "" => if int_space c then "" else String c ""
      | r => String c r
      end
  end.

Definition strip (s : string) : string := rstrip (lstrip s).

Definition digit_val (c : ascii) : option N :=
  let n := N_of_ascii c in
  if ((48 <=? n) && (n <=? 57))%N then Some (n - 48)%N else None.

(** The digits of an [int] literal in base 10: at least one digit, and
    single underscores only between digits.  [after_digit] tells whether the
    previous character was a digit. *)
Fixpoint int_digits (acc : N) (after_digit : bool) (s : string) : option N :=
  match s with
  | "" => if after_digit then Some acc else None
  | String c s' =>
      match digit_val c with
      | Some d => int_digits (10 * acc + d)%N true s'
      | None =>
          if Ascii.eqb c "_" && after_digit then int_digits acc false s'
          else None
      end
  end.

(** [int(s)] for a string [s]. *)
Definition int (s : string) : result Z :=
  let body (neg : bool) (t : string) :=
    match int_digits 0 false t with
    | Some n => Ok (if neg then (- Z.of_N n)%Z else Z.of_N n)
    | None => Raise ValueError
    end in
  match strip s with
  | "" => Raise ValueError
  | String c t =>
      if Ascii.eqb c "-" then body true t
      else if Ascii.eqb c "+" then body false t
      else body false (String c t)
  end.

(** [l[i]]. *)
Definition index {A : Type} (l : list A) (i : nat) : result A :=
  match nth_error l i with
  | Some x => Ok x
  | None => Raise IndexError
  end.

Definition digit_char (d : N) : ascii := ascii_of_N (48 + d).

Fixpoint digits_fuel (fuel : nat) (n : N) (acc : string) : string :=
  let acc' := String (digit_char (n mod 10)) acc in
  match fuel with
  | O => acc'
  | S k => if (n <? 10)%N then acc' else digits_fuel k (n / 10)%N acc'
  end.

(** [str(n)] for a natural number: decimal, no padding. *)
Definition str_of_N (n : N) : string :=
  digits_fuel (N.to_nat (N.log2 n)) n "".

(** The proleptic Gregorian year of a day number (days since 1970-01-01). *)
Definition civil_year (days : Z) : Z :=
  (let z := days + 719468 in
   let era := z / 146097 in
   let doe := z - era * 146097 in
   let yoe := (doe - doe / 1460 + doe / 36524 - doe / 146096) / 365 in
   let doy := doe - (365 * yoe + yoe / 4 - yoe / 100) in
   let mp := (5 * doy + 2) / 153 in
   yoe + era * 400 + (if mp <? 10 then 0 else 1))%Z.

(** The year of the local time of an instant. *)
Definition local_year (utcoffset : Z -> Z) (ts : Z) : Z :=
  civil_year ((ts + utcoffset ts) / 86400).

Definition year_in_range (y : Z) : bool := ((1 <=? y) && (y <=? 9999))%Z.

(** [datetime.fromtimestamp(ts)], reduced to the field [%Y] reads: the year
    of [ts] in local time.  A [datetime] holds the years 1 to 9999 only, and
    the conversion also converts the instant a day earlier, and after a
    backward change of the offset the instant that much earlier, to tell
    whether the local time is repeated; each conversion fails out of range.
    (The errors a platform raises for instants beyond its own range are not
    told apart from ValueError.) *)
Definition fromtimestamp (utcoffset : Z -> Z) (ts : Z) : result Z :=
  let y := local_year utcoffset ts in
  let probe := (ts - 86400)%Z in
  let transition := (utcoffset ts - utcoffset probe)%Z in
  if negb (year_in_range y) then Raise ValueError
  else if negb (year_in_range (local_year utcoffset probe))
  then Raise ValueError
  else if (transition <? 0)%Z
          && negb (year_in_range (local_year utcoffset (ts + transition)))
  then Raise ValueError
  else Ok y.

(** [strftime("%Y")]: the year in decimal, as the C library prints it. *)
Definition strftime_Y (year : Z) : string := str_of_N (Z.to_N year).

Fixpoint insert_by {A : Type} (le : A -> A -> bool) (x : A) (l : list A)
  : list A :=
  match l with
  | [] => [x]
  | y :: l' => if le x y then x :: l else y :: insert_by le x l'
  end.

(** A stable sort: of two elements that compare equal, the one that came
    first stays first. *)
Definition sort_by {A : Type} (le : A -> A -> bool) (l : list A) : list A :=
  fold_right (insert_by le) [] l.

(** [l.sort()] for a list of strings: code-point lexicographic order. *)
Definition list_sort (l : list string) : list string :=
  sort_by String.leb l.

(** [sorted(l, key=key, reverse=True)] for string keys: a new list. *)
Definition sorted_reverse {A : Type} (key : A -> string) (l : list A)
  : list A :=
  sort_by (fun x y => String.leb (key y) (key x)) l.

(** [x in l] for a list of strings. *)
Definition contains (l : list string) (x : string) : bool :=
  existsb (String.eqb x) l.

(** An insertion-ordered [dict] with string keys. *)
Definition dict (V : Type) : Type := list (string * V).

Fixpoint dict_lookup {V : Type} (d : dict V) (k : string) : option V :=
  match d with
  | [] => None
  | (k', v) :: d' => if String.eqb k k' then Some v else dict_lookup d' k
  end.

(** [d.get(k, default)]. *)
Definition dict_get {V : Type} (d : dict V) (k : string) (default : V) : V :=
  match dict_lookup d k with
  | Some v => v
  | None => default
  end.

(** [d[k] = v]: an existing key keeps its place, a new key goes last. *)
Fixpoint dict_set {V : Type} (d : dict V) (k : string) (v : V) : dict V :=
  match d with
  | [] => [(k, v)]
  | (k', v') :: d' =>
      if String.eqb k k' then (k', v) :: d' else (k', v') :: dict_set d' k v
  end.

End Py.

(** ** The script's constants *)

Definition DEFAULT_LICENSE : string := "GPL-3.0-or-later".

Definition AUTHOR_REWRITE : Py.dict string := [("Alvar", "Alvar Penning")].

Definition FILE_IGNORE : list string :=
  ["go.mod"; "go.sum";
   ".reuse/dep5";
   "LICENSE"; "LICENSES/CC0-1.0.txt"; "LICENSES/GPL-3.0-or-later.txt"].

(** [Ownership = Tuple[str, str, str]]: (Filename, Author, Years). *)
Definition Ownership : Type := string * string * string.

Definition owner_file (o : Ownership) : string := fst (fst o).
Definition owner_author (o : Ownership) : string := snd (fst o).
Definition owner_years (o : Ownership) : string := snd o.

Definition NUL : ascii := ascii_of_N 0.
Definition LF : ascii := ascii_of_N 10.
Definition CR : ascii := ascii_of_N 13.

(** ** The aggregation: lines 42-63 of [file_authors], after the git call *)

Section Aggregation.

(** Seconds east of UTC of the local time zone at an instant. *)
Variable utcoffset : Z -> Z.

(** The order in which [for ... in set(l)] visits the elements of [set(l)]. *)
Variable set_iter : list (string * string) -> list (string * string).

(** Lines 46-47, one element of [owners_year]:
    [(tpl[0], datetime.fromtimestamp(int(tpl[1])).strftime("%Y"))]. *)
Definition owner_year (tpl : list string) : result (string * string) :=
  (author <- Py.index tpl 0 ;;
   stamp <- Py.index tpl 1 ;;
   ts <- Py.int stamp ;;
   year <- Py.fromtimestamp utcoffset ts ;;
   Ok (author, Py.strftime_Y year))%result.

(** Line 51: the Identity Normalizer. *)
Definition rewrite_author (author : string) : string :=
  Py.dict_get AUTHOR_REWRITE author author.

(** Lines 51-57: the body of the loop over [set(owners_year)]. *)
Definition group_step (owner_grp : Py.dict (list string))
    (entry : string * string) : Py.dict (list string) :=
  let (raw, year) := entry in
  let author := rewrite_author raw in
  match Py.dict_lookup owner_grp author with
  | None => Py.dict_set owner_grp author [year]
  | Some years =>
      if Py.contains years year then owner_grp
      else Py.dict_set owner_grp author (Py.list_sort (years ++ [year]))
  end.

(** Lines 49-57. *)
Definition group_owners (owners_year : list (string * string))
  : Py.dict (list string) :=
  fold_left group_step (set_iter owners_year) [].

(** Lines 59-60. *)
Definition ownerships (f : string) (owner_grp : Py.dict (list string))
  : list Ownership :=
  map (fun entry : string * list string =>
         (f, fst entry, String.concat ", " (snd entry))) owner_grp.

(** Lines 42-47, from the standard output [out] of [git log]. *)
Definition parse_log (out : string) : result (list (string * string)) :=
  let owners_raw := Py.split_on LF out in
  let owners_tpl := rev (map (Py.split_on NUL) owners_raw) in
  comprehension owner_year owners_tpl.

(** Lines 42-63 of [file_authors], from the standard output of [git log].
    Line 61 builds a sorted copy of [owners] and drops it. *)
Definition file_authors_of_log (f out : string) : result (list Ownership) :=
  (owners_year <- parse_log out ;;
   let owner_grp := group_owners owners_year in
   let owners := ownerships f owner_grp in
   let _ := Py.sorted_reverse owner_author owners in
   Ok owners)%result.

(** [file_authors_of_log] with line 61 deleted. *)
Definition file_authors_of_log_without_sorted (f out : string)
  : result (list Ownership) :=
  (owners_year <- parse_log out ;;
   let owner_grp := group_owners owners_year in
   let owners := ownerships f owner_grp in
   Ok owners)%result.

End Aggregation.

(** ** The external processes and the main program *)

(** A command line ([argv]) and the command lines run so far, oldest first. *)
Definition cmd : Type := list string.
Definition trace : Type := list cmd.

(** A computation that runs processes: from the trace so far to a result or
    an exception, and the trace extended by what it ran. *)
Definition proc (A : Type) : Type := trace -> result A * trace.

Definition ret {A : Type} (a : A) : proc A := fun tr => (Ok a, tr).

Definition lift {A : Type} (r : result A) : proc A := fun tr => (r, tr).

Definition pbind {A B : Type} (c : proc A) (k : A -> proc B) : proc B :=
  fun tr =>
    match c tr with
    | (Ok a, tr') => k a tr'
    | (Raise e, tr') => (Raise e, tr')
    end.

Declare Scope proc_scope.
Delimit Scope proc_scope with proc.
Notation "x <- c ;; k" := (pbind c (fun x => k))
  (at level 61, c at next level, right associativity) : proc_scope.

Section Program.

Variable utcoffset : Z -> Z.
Variable set_iter : list (string * string) -> list (string * string).

(** The exit status and standard output of a command, given the commands run
    before it. *)
Variable run_process : trace -> cmd -> Z * string.

(** [subprocess.run(argv, ..., check=True)]: the command is run once; its
    standard output (as text) is the result when it exits with status 0,
    and CalledProcessError is raised otherwise. *)
Definition subprocess_run (argv : cmd) : proc string :=
  fun tr =>
    let (returncode, stdout) := run_process tr argv in
    (if (returncode =? 0)%Z then Ok stdout else Raise CalledProcessError,
     tr ++ [argv]).

(** Lines 31-36. *)
Definition git (cmds : list string) : proc string :=
  subprocess_run ("git" :: cmds).

Definition log_cmd (f : string) : list string :=
  ["log"; "--pretty=format:%an%x00%at"; f].

(** Lines 39-63. *)
Definition file_authors (f : string) : proc (list Ownership) :=
  (out <- git (log_cmd f) ;;
   lift (file_authors_of_log utcoffset set_iter f out))%proc.

(** [file_authors] with line 61 deleted. *)
Definition file_authors_without_sorted (f : string) : proc (list Ownership) :=
  (out <- git (log_cmd f) ;;
   lift (file_authors_of_log_without_sorted utcoffset set_iter f out))%proc.

Definition addheader_cmd (f author years license : string) : cmd :=
  ["reuse"; "addheader";
   ("--copyright=" ++ author)%string; ("--year=" ++ years)%string;
   ("--license=" ++ license)%string; f].

(** Lines 66-71. *)
Definition reuse_addheader (f author years license : string) : proc unit :=
  (_ <- subprocess_run (addheader_cmd f author years license) ;; ret tt)%proc.

(** Line 75: the tracked files that are not excluded. *)
Definition select_files (listing : string) : list string :=
  filter (fun f => negb (Py.contains FILE_IGNORE f)) (Py.split listing).

(** Lines 77-79. *)
Fixpoint collect_owners (files : list string) (owners : list Ownership)
  : proc (list Ownership) :=
  match files with
  | [] => ret owners
  | f :: files' =>
      (found <- file_authors f ;;
       collect_owners files' (owners ++ found))%proc
  end.

(** Lines 81-82. *)
Fixpoint apply_headers (owners : list Ownership) : proc unit :=
  match owners with
  | [] => ret tt
  | (f, author, years) :: owners' =>
      (_ <- reuse_addheader f author years DEFAULT_LICENSE ;;
       apply_headers owners')%proc
  end.

(** Lines 75-79: the File Ownership Resolver. *)
Definition resolve : proc (list Ownership) :=
  (listing <- git ["ls-files"] ;;
   collect_owners (select_files listing) [])%proc.

(** Lines 74-82. *)
Definition main : proc unit :=
  (owners <- resolve ;; apply_headers owners)%proc.

End Program.

(** ** What git prints *)

(** A CommitRecord: author display name and author timestamp.  git keeps
    the timestamp of a commit as a string of decimal digits, without a
    sign: it is a natural number. *)
Definition CommitRecord : Type := string * N.

(** One record of [--pretty=format:%an%x00%at]: the name, a NUL and the
    digits of the timestamp. *)
Definition log_line (c : CommitRecord) : string :=
  (fst c ++ String NUL (Py.str_of_N (snd c)))%string.

(** The output of [git log --pretty=format:%an%x00%at] for a history given
    oldest commit first: newest first, a line feed between records and none
    at the end. *)
Definition git_log_output (commits : list CommitRecord) : string :=
  String.concat (String LF "") (map log_line (rev commits)).

(** ** Concrete environments, to run the model *)

(** The time zone UTC. *)
Definition utc : Z -> Z := fun _ => 0%Z.

Definition pair_eqb (x y : string * string) : bool :=
  String.eqb (fst x) (fst y) && String.eqb (snd x) (snd y).

(** One possible iteration order of a set: first occurrences, in order. *)
Fixpoint first_seen (l : list (string * string)) : list (string * string) :=
  match l with
  | [] => []
  | x :: l' => x :: filter (fun y => negb (pair_eqb x y)) (first_seen l')
  end.

(** Another one: the reverse of [first_seen]. *)
Definition last_first (l : list (string * string)) : list (string * string) :=
  rev (first_seen l).

(** What the model requires of an iteration order. *)
Definition set_order (it : list (string * string) -> list (string * string))
  : Prop :=
  forall l, NoDup (it l) /\ forall x, In x (it l) <-> In x l.

(** ** Vocabulary of the statements *)

(** The order of Python's [<] on strings. *)
Definition str_lt (s t : string) : Prop := String.ltb s t = true.

(** The order of the numbers two strings denote, as [int] reads them. *)
Definition num_lt (s t : string) : Prop :=
  match Py.int s, Py.int t with
  | Ok m, Ok n => (m < n)%Z
  | _, _ => False
  end.

(** [c in s] for a character [c]. *)
Fixpoint mentions (c : ascii) (s : string) : bool :=
  match s with
  | "" => false
  | String c' s' => Ascii.eqb c' c || mentions c s'
  end.

(** A string of decimal digits. *)
Fixpoint all_digits (s : string) : bool :=
  match s with
  | "" => true
  | String c s' =>
      match Py.digit_val c with
      | Some _ => all_digits s'
      | None => false
      end
  end.

(** The number a string of digits denotes, continuing from [acc]. *)
Fixpoint dec_value (acc : N) (s : string) : N :=
  match s with
  | "" => acc
  | String c s' =>
      match Py.digit_val c with
      | Some d => dec_value (10 * acc + d) s'
      | None => acc
      end
  end.

(** Some character of [s] is whitespace. *)
Fixpoint has_space (s : string) : bool :=
  match s with
  | "" => false
  | String c s' => Py.isspace c || has_space s'
  end.


(** The ContributionYear of a commit, as line 46 computes it. *)
Definition commit_year (utcoffset : Z -> Z) (c : CommitRecord)
  : result string :=
  (year <- Py.fromtimestamp utcoffset (Z.of_N (snd c)) ;;
   Ok (Py.strftime_Y year))%result.

(** What [owners_year] holds for a commit whose year is in range. *)
Definition commit_entry (utcoffset : Z -> Z) (c : CommitRecord)
  : string * string :=
  (fst c, match commit_year utcoffset c with Ok y => y | Raise _ => "" end).

(** A commit git can print and [datetime] can hold: the author name has no
    line feed, no carriage return (which the text mode of [subprocess.run]
    would turn into a line feed) and no NUL, and the local year of the
    timestamp is in range. *)
Definition well_formed (utcoffset : Z -> Z) (c : CommitRecord) : Prop :=
  mentions LF (fst c) = false /\ mentions CR (fst c) = false /\
  mentions NUL (fst c) = false /\
  exists y, commit_year utcoffset c = Ok y.

(** Reading a years string back as the list of its years:
    [years.split(", ")]. *)
Fixpoint read_years (years : string) : list string :=
  match years with
  | "" => [""]
  | String c s' =>
      match s' with
      | "" => [String c ""]
      | String c' s'' =>
          if Ascii.eqb c "," && Ascii.eqb c' " " then "" :: read_years s''
          else Py.head_cons c (read_years s')
      end
  end.

(** What the aggregation loop maintains: [owner_grp] after the entries
    [seen] of the set have been visited. *)
Record grouped (seen : list (string * string))
    (owner_grp : Py.dict (list string)) : Prop := {
  grouped_keys : NoDup (map fst owner_grp);
  grouped_some : forall a ys,
      Py.dict_lookup owner_grp a = Some ys ->
      StronglySorted str_lt ys /\ ys <> [] /\
      forall y, In y ys <->
                exists raw, In (raw, y) seen /\ rewrite_author raw = a;
  grouped_none : forall a,
      Py.dict_lookup owner_grp a = None ->
      forall raw y, In (raw, y) seen -> rewrite_author raw <> a
}.

(** The years in which a history has commits, as a list in any order. *)
Definition history_years (utcoffset : Z -> Z) (commits : list CommitRecord)
    (years : list string) : Prop :=
  forall y, In y years <->
            exists c, In c commits /\ commit_year utcoffset c = Ok y.

(** The years in which a history has commits of the canonical author [a]. *)
Definition author_years (utcoffset : Z -> Z) (commits : list CommitRecord)
    (a : string) (years : list string) : Prop :=
  forall y, In y years <->
            exists c, In c commits /\ rewrite_author (fst c) = a /\
                      commit_year utcoffset c = Ok y.

(** The local year of a commit's timestamp. *)
Definition commit_in_year (utcoffset : Z -> Z) (c : CommitRecord) (year : Z)
  : Prop :=
  Py.fromtimestamp utcoffset (Z.of_N (snd c)) = Ok year.

(** ** Example histories *)

(** Timestamps in 2019, 2020 and 2021 (UTC). *)
Definition in_2019 : N := 1550000000.
Definition in_2020 : N := 1590000000.
Definition in_2021 : N := 1620000000.

(** Two authors, three years between them. *)
Definition two_author_history : list CommitRecord :=
  [("Ada", in_2019); ("Bob", in_2021); ("Bob", in_2020)].

(** One author under two names, three years, not in order. *)
Definition alias_history : list CommitRecord :=
  [("Alvar", in_2019); ("Alvar Penning", in_2021); ("Alvar", in_2020)].

(** The scenario of the rewrite table: "Alvar" in 2020, then
    "Alvar Penning" in 2021. *)
Definition scenario_history : list CommitRecord :=
  [("Alvar", in_2020); ("Alvar Penning", in_2021)].

(** ** What git prints for the tracked files *)

(** How git prints a path in a listing (its C-style quoting, with the
    default [core.quotePath]).  The characters of a path are its bytes.  A
    control character, a double quote, a backslash, DEL or a byte above 127
    makes git quote the path: the path goes between double quotes, and
    each such character becomes a backslash followed by a letter, by the
    character itself or by three octal digits.  A space is printed as it
    is. *)
Definition must_quote (c : ascii) : bool :=
  let n := N_of_ascii c in
  ((n <? 32) || (n =? 34) || (n =? 92) || (127 <=? n))%N.

Definition octal (n : N) : string :=
  String (ascii_of_N (48 + (n / 64) mod 4))
    (String (ascii_of_N (48 + (n / 8) mod 8))
       (String (ascii_of_N (48 + n mod 8)) "")).

Definition escape (c : ascii) : string :=
  let n := N_of_ascii c in
  if (n =? 7)%N then "a" else if (n =? 8)%N then "b"
  else if (n =? 9)%N then "t" else if (n =? 10)%N then "n"
  else if (n =? 11)%N then "v" else if (n =? 12)%N then "f"
  else if (n =? 13)%N then "r"
  else if ((n =? 34) || (n =? 92))%N then String c ""
  else octal n.

Fixpoint needs_quoting (path : string) : bool :=
  match path with
  | "" => false
  | String c path' => must_quote c || needs_quoting path'
  end.

Fixpoint quote_chars (path : string) : string :=
  match path with
  | "" => ""
  | String c path' =>
      ((if must_quote c then String (ascii_of_N 92) (escape c)
        else String c "") ++ quote_chars path')%string
  end.

(** One line of [git ls-files], without its line feed. *)
Definition ls_files_line (path : string) : string :=
  if needs_quoting path
  then String (ascii_of_N 34) (quote_chars path ++ String (ascii_of_N 34) "")
  else path.

(** The output of [git ls-files]: every path, printed as a line of the
    listing, is followed by a line feed. *)
Definition ls_files_output (paths : list string) : string :=
  fold_right (fun p rest => ls_files_line p ++ String LF rest)%string
             "" paths.

(** ** The commands of a run *)

(** [c] is the [git log] query for one of [files]. *)
Definition is_log_of (files : list string) (c : cmd) : Prop :=
  exists f, In f files /\ c = "git" :: log_cmd f.

(** [c] is a [reuse addheader] call for one of [files]. *)
Definition is_header_of (files : list string) (c : cmd) : Prop :=
  exists f author years,
    In f files /\ c = addheader_cmd f author years DEFAULT_LICENSE.

(** The tracked-file listing of a run that starts with no command run. *)
Definition tracked_listing (run_process : trace -> cmd -> Z * string)
  : string :=
  snd (run_process [] ["git"; "ls-files"]).

(** The program a command line runs. *)
Definition program (c : cmd) : string := hd "" c.

(** A repository in which go.mod and main.go are tracked and both have a
    history; every command succeeds. *)
Definition example_repo : trace -> cmd -> Z * string :=
  fun _ argv =>
    match argv with
    | ["git"; "ls-files"] => (0%Z, ls_files_output ["go.mod"; "main.go"])
    | ["git"; "log"; _; _] => (0%Z, git_log_output scenario_history)
    | _ => (0%Z, "")
    end.

(** A repository in which a.txt and b.txt are tracked and [git log] fails
    for b.txt. *)
Definition broken_repo : trace -> cmd -> Z * string :=
  fun _ argv =>
    match argv with
    | ["git"; "ls-files"] => (0%Z, ls_files_output ["a.txt"; "b.txt"])
    | ["git"; "log"; _; "a.txt"] => (0%Z, git_log_output scenario_history)
    | ["git"; "log"; _; _] => (128%Z, "")
    | _ => (0%Z, "")
    end.

(** A repository in which new.txt is tracked (added to the index) and has
    no commit yet: [git log] prints nothing for it and succeeds. *)
Definition staged_repo : trace -> cmd -> Z * string :=
  fun _ argv =>
    match argv with
    | ["git"; "ls-files"] => (0%Z, ls_files_output ["new.txt"])
    | _ => (0%Z, "")
    end.

(** ** More vocabulary *)

(** The distinct elements of a list, in the order of their first
    occurrence. *)
Fixpoint first_visits (l : list string) : list string :=
  match l with
  | [] => []
  | x :: l' => x :: filter (fun y => negb (String.eqb x y)) (first_visits l')
  end.

(** A line of the log that line 46 can read: it has two NUL-separated
    fields at least, [int] accepts the second one, and [datetime] can hold
    the instant it denotes. *)
Definition line_parses (utcoffset : Z -> Z) (line : string) : Prop :=
  exists author stamp rest ts year,
    Py.split_on NUL line = author :: stamp :: rest /\
    Py.int stamp = Ok ts /\
    Py.fromtimestamp utcoffset ts = Ok year.

(** The [reuse addheader] call of a record, with the default license. *)
Definition header_of (r : Ownership) : cmd :=
  addheader_cmd (owner_file r) (owner_author r) (owner_years r)
                DEFAULT_LICENSE.

(** The records [file_authors] returns for the file [f]: all for [f], no
    two for one author. *)
Definition chunk_of (f : string) (chunk : list Ownership) : Prop :=
  Forall (fun r => owner_file r = f) chunk /\
  NoDup (map owner_author chunk).

(** The [git log] query of a file. *)
Definition log_of (f : string) : cmd := "git" :: log_cmd f.

(** A repository in which a.txt and b.txt are tracked and have a history,
    and [reuse addheader] fails for b.txt. *)
Definition read_only_repo : trace -> cmd -> Z * string :=
  fun _ argv =>
    match argv with
    | ["git"; "ls-files"] => (0%Z, ls_files_output ["a.txt"; "b.txt"])
    | ["git"; "log"; _; _] => (0%Z, git_log_output scenario_history)
    | ["reuse"; "addheader"; _; _; _; "b.txt"] => (1%Z, "")
    | _ => (0%Z, "")
    end.

(** A directory that is no repository: every git command fails. *)
Definition no_repo : trace -> cmd -> Z * string :=
  fun _ _ => (128%Z, "").

(** A repository in which only excluded files are tracked. *)
Definition excluded_only_repo : trace -> cmd -> Z * string :=
  fun _ argv =>
    match argv with
    | ["git"; "ls-files"] => (0%Z, ls_files_output ["go.mod"; "LICENSE"])
    | _ => (0%Z, git_log_output scenario_history)
    end.

(** The key of a record in a run. *)
Definition record_key (r : Ownership) : string * string :=
  (owner_file r, owner_author r).

(** ** contrib/coreemu/dotcore/myservices/dtn7.py: the CORE services *)

(** The double quote character, as a string. *)
Definition DQ : string := String (ascii_of_N 34) "".

(** A string between double quotes. *)
Definition quoted (s : string) : string := (DQ ++ s ++ DQ)%string.

(** [core.nodes.base.CoreNode], reduced to the attribute the services read. *)
Record CoreNode : Type := { node_name : string }.

(** [core.services.coreservices.ServiceMode]. *)
Inductive ServiceMode : Type := BLOCKING | NON_BLOCKING | TIMER.

Module DTNService.

Definition name : string := "dtnd".
Definition group : string := "dtn7".
Definition executables : list string := ["dtnd"].
Definition dependencies : list string := [].
Definition dirs : list string := [].
Definition configs : list string := ["dtnd.toml"].
Definition startup : list string := ["bash -c 'dtnd dtnd.toml &> dtnd.log'"].
Definition validate : list string := ["sleep 2"].
Definition validation_mode : ServiceMode := NON_BLOCKING.
Definition validation_timer : Z := 5.
Definition shutdown : list string := [].

(** Lines 55-82, line by line.  The literal starts and ends with a line
    feed, hence the empty first and last lines. *)
Definition config_lines (node : CoreNode) : list string :=
  [""; "[core]";
   ("store = " ++ quoted "store")%string;
   "inspect-all-bundles = true";
   ("node-id = " ++ quoted ("dtn://" ++ node_name node ++ "/"))%string;
   "";
   "[logging]";
   ("level = " ++ quoted "info")%string;
   ("format = " ++ quoted "text")%string;
   "";
   "[discovery]";
   "ipv4 = true";
   "ipv6 = false";
   "";
   "[agents]";
   "";
   "[agents.webserver]";
   ("address = " ++ quoted "localhost:8080")%string;
   "websocket = true";
   "rest = true";
   "";
   "[[listen]]";
   ("protocol = " ++ quoted "mtcp")%string;
   ("endpoint = " ++ quoted ":4556")%string;
   "";
   "[routing]";
   ("algorithm = " ++ quoted "epidemic")%string;
   ""].

(** Lines 55-82: the text of dtnd.toml. *)
Definition config_text (node : CoreNode) : string :=
  String.concat (String LF "") (config_lines node).

(** Lines 51-82.  When the file name is not the first of [configs] the
    function ends without a [return]: the result is [None]. *)
Definition generate_config (node : CoreNode) (filename : string)
  : result (option string) :=
  (first <- Py.index configs 0 ;;
   if String.eqb filename first then Ok (Some (config_text node))
   else Ok None)%result.

End DTNService.

Module DTNExchangeService.

Definition name : string := "dtn-exchange".
Definition group : string := "dtn7".
Definition executables : list string := ["dtn-tool"].
Definition dependencies : list string := ["dtnd"].
Definition dirs : list string := [].
Definition configs : list string := [].
Definition startup : list string := [].
Definition validate : list string := [].
Definition validation_mode : ServiceMode := NON_BLOCKING.
Definition validation_timer : Z := 5.
Definition shutdown : list string := [].

(** Lines 125-130. *)
Definition get_startup (node : CoreNode) : list string :=
  ["mkdir dtn-exchange";
   ("bash -c 'dtn-tool exchange ws://localhost:8080/ws dtn://"
      ++ node_name node ++ "/ dtn-exchange &> dtn-exchange.log'")%string].

End DTNExchangeService.

(** * Proofs *)

(** ** The built-ins on sample inputs *)

Example split_on_samples :
  Py.split_on LF "" = [""] /\
  Py.split_on LF (String "a" (String LF "b")) = ["a"; "b"] /\
  Py.split_on LF (String "a" (String LF "")) = ["a"; ""] /\
  Py.split_on "," "a,,b" = ["a"; ""; "b"].
Proof. repeat split. Qed.

Example split_samples :
  Py.split "" = [] /\
  Py.split "   " = [] /\
  Py.split (String " " (String "a" (String LF (String LF "b c")))) 
  = ["a"; "b"; "c"].
Proof. repeat split. Qed.

Example int_samples :
  Py.int "1590000000" = Ok 1590000000%Z /\
  Py.int " -12_3 " = Ok (-123)%Z /\
  Py.int "+007" = Ok 7%Z /\
  Py.int "" = Raise ValueError /\
  Py.int "-" = Raise ValueError /\
  Py.int "1__2" = Raise ValueError /\
  Py.int "_1" = Raise ValueError /\
  Py.int "1_" = Raise ValueError /\
  Py.int "12a" = Raise ValueError /\
  Py.int "- 1" = Raise ValueError /\
  Py.int (String (ascii_of_N 160) (String "5" (String (ascii_of_N 133) "")))
  = Ok 5%Z /\
  Py.int (String (ascii_of_N 28) "5") = Raise ValueError.
Proof. repeat split. Qed.

Example str_samples :
  Py.str_of_N 0 = "0" /\ Py.str_of_N 1590000000 = "1590000000" /\
  Py.strftime_Y 999 = "999".
Proof. repeat split. Qed.

(** The listing of a repository with the files lead (after a space),
    back\slash, caf\303\251.txt (two bytes above 127), my notes.txt, notes
    (before a space), plain.txt and a name with a tab, as git 2.39 prints
    it. *)
Example ls_files_samples :
  ls_files_line " lead" = " lead" /\
  ls_files_line "my notes.txt" = "my notes.txt" /\
  ls_files_line "notes " = "notes " /\
  ls_files_line (String "a" (String (ascii_of_N 9) "b"))
  = String (ascii_of_N 34)
      (String "a" (String (ascii_of_N 92)
         (String "t" (String "b" (String (ascii_of_N 34) ""))))) /\
  ls_files_line (String "d" (String (ascii_of_N 127) ""))
  = String (ascii_of_N 34)
      (String "d" (String (ascii_of_N 92)
         (String "1" (String "7" (String "7" (String (ascii_of_N 34) "")))))) /\
  ls_files_line (String (ascii_of_N 233) "")
  = String (ascii_of_N 34)
      (String (ascii_of_N 92)
         (String "3" (String "5" (String "1" (String (ascii_of_N 34) ""))))) /\
  ls_files_line (String "q" (String (ascii_of_N 34) ""))
  = String (ascii_of_N 34)
      (String "q" (String (ascii_of_N 92)
         (String (ascii_of_N 34) (String (ascii_of_N 34) "")))) /\
  ls_files_output ["go.mod"; "my notes.txt"]
  = String.concat "" ["go.mod"; String LF ""; "my notes.txt"; String LF ""].
Proof. repeat split. Qed.

(** 1970-01-01, the day before, 29 February and 1 March 2000, the last day
    of 2019 and the first of 2020, and the two ends of [datetime]. *)
Example civil_year_samples :
  Py.civil_year 0 = 1970%Z /\ Py.civil_year (-1) = 1969%Z /\
  Py.civil_year 11016 = 2000%Z /\ Py.civil_year 11017 = 2000%Z /\
  Py.civil_year 18261 = 2019%Z /\ Py.civil_year 18262 = 2020%Z /\
  Py.civil_year (-719162) = 1%Z /\ Py.civil_year (-719163) = 0%Z /\
  Py.civil_year 2932896 = 9999%Z /\ Py.civil_year 2932897 = 10000%Z.
Proof. repeat split. Qed.

Example fromtimestamp_samples :
  Py.fromtimestamp utc 1577836799 = Ok 2019%Z /\
  Py.fromtimestamp utc 1577836800 = Ok 2020%Z /\
  Py.fromtimestamp (fun _ => 3600%Z) 1577836799 = Ok 2020%Z /\
  Py.fromtimestamp (fun _ => (-18000)%Z) 1577836800 = Ok 2019%Z /\
  Py.fromtimestamp utc 253402300799 = Ok 9999%Z /\
  Py.fromtimestamp utc 253402300800 = Raise ValueError /\
  Py.fromtimestamp utc (-62135510400) = Ok 1%Z /\
  Py.fromtimestamp utc (-62135510401) = Raise ValueError /\
  Py.fromtimestamp (fun _ => 32400%Z) (-62135542800) = Ok 1%Z /\
  Py.fromtimestamp (fun _ => 32400%Z) (-62135542801) = Raise ValueError.
Proof. repeat split. Qed.

Example sort_samples :
  Py.list_sort ["2021"; "2019"; "2020"] = ["2019"; "2020"; "2021"] /\
  Py.list_sort ["999"; "1000"] = ["1000"; "999"] /\
  Py.sorted_reverse fst [("b", 1); ("a", 2); ("c", 3); ("b", 4); ("a", 5)]
  = [("c", 3); ("b", 1); ("b", 4); ("a", 2); ("a", 5)].
Proof. repeat split. Qed.

Example dict_samples :
  Py.dict_get AUTHOR_REWRITE "Alvar" "Alvar" = "Alvar Penning" /\
  Py.dict_get AUTHOR_REWRITE "Ada" "Ada" = "Ada" /\
  Py.dict_set (Py.dict_set [("a", 1)] "b" 2) "a" 3 = [("a", 3); ("b", 2)].
Proof. repeat split. Qed.

(** ** The order on strings *)

Lemma ascii_compare_refl c : Ascii.compare c c = Eq.
Proof. unfold Ascii.compare. apply N.compare_refl. Qed.

Lemma str_compare_refl s : String.compare s s = Eq.
Proof.
  induction s as [|c s IH]; simpl; [reflexivity|].
  now rewrite ascii_compare_refl.
Qed.

Lemma str_compare_lt_trans a b c :
  String.compare a b = Lt -> String.compare b c = Lt ->
  String.compare a c = Lt.
Proof.
  revert b c.
  induction a as [|x a IH]; intros [|y b] [|z c]; simpl; try easy.
  unfold Ascii.compare.
  destruct (N.compare_spec (N_of_ascii x) (N_of_ascii y)) as [Exy|Lxy|Gxy];
    try easy;
    destruct (N.compare_spec (N_of_ascii y) (N_of_ascii z)) as [Eyz|Lyz|Gyz];
    try easy; intros Hab Hbc.
  - rewrite Exy, Eyz, N.compare_refl. eauto.
  - rewrite Exy. now apply N.compare_lt_iff in Lyz as ->.
  - rewrite <- Eyz. now apply N.compare_lt_iff in Lxy as ->.
  - assert (H : (N_of_ascii x < N_of_ascii z)%N) by lia.
    now apply N.compare_lt_iff in H as ->.
Qed.

Lemma str_lt_irrefl s : ~ str_lt s s.
Proof. unfold str_lt, String.ltb. now rewrite str_compare_refl. Qed.

Lemma str_lt_trans a b c : str_lt a b -> str_lt b c -> str_lt a c.
Proof.
  unfold str_lt, String.ltb. intros Hab Hbc.
  destruct (String.compare a b) eqn:Eab; try discriminate.
  destruct (String.compare b c) eqn:Ebc; try discriminate.
  now rewrite (str_compare_lt_trans a b c).
Qed.

Lemma str_leb_true s t : String.leb s t = true -> str_lt s t \/ s = t.
Proof.
  unfold str_lt, String.leb, String.ltb.
  destruct (String.compare s t) eqn:E; intros H; try discriminate.
  - right. now apply String.compare_eq_iff.
  - now left.
Qed.

Lemma str_leb_false s t : String.leb s t = false -> str_lt t s.
Proof.
  unfold str_lt, String.leb, String.ltb.
  rewrite (String.compare_antisym t s).
  now destruct (String.compare s t).
Qed.

Lemma str_lt_neq s t : str_lt s t -> s <> t.
Proof. intros H ->. now apply (str_lt_irrefl t). Qed.

(** Two strictly increasing lists with the same elements are the same list. *)
Lemma sorted_same_elements (l1 l2 : list string) :
  StronglySorted str_lt l1 -> StronglySorted str_lt l2 ->
  (forall x, In x l1 <-> In x l2) -> l1 = l2.
Proof.
  intros S1. revert l2.
  induction S1 as [|a l1 S1 IH Ha]; intros l2 S2 Hin.
  - destruct l2 as [|b l2]; [reflexivity|].
    destruct (proj2 (Hin b) (or_introl eq_refl)).
  - destruct S2 as [|b l2 S2 Hb].
    + destruct (proj1 (Hin a) (or_introl eq_refl)).
    + rewrite Forall_forall in Ha, Hb.
      assert (a = b) as ->.
      { destruct (proj1 (Hin a) (or_introl eq_refl)) as [E|Hab]; [easy|].
        destruct (proj2 (Hin b) (or_introl eq_refl)) as [E|Hba]; [easy|].
        exfalso. apply (str_lt_irrefl a).
        eapply str_lt_trans; [apply Ha, Hba | apply Hb, Hab]. }
      f_equal. apply IH; [assumption|].
      intros x. split; intros Hx.
      * destruct (proj1 (Hin x) (or_intror Hx)) as [E|H]; [|assumption].
        subst x. exfalso. exact (str_lt_irrefl _ (Ha _ Hx)).
      * destruct (proj2 (Hin x) (or_intror Hx)) as [E|H]; [|assumption].
        subst x. exfalso. exact (str_lt_irrefl _ (Hb _ Hx)).
Qed.

Lemma sorted_NoDup (l : list string) : StronglySorted str_lt l -> NoDup l.
Proof.
  induction 1 as [|a l S IH Ha]; constructor; [|assumption].
  intros Hin. rewrite Forall_forall in Ha.
  exact (str_lt_irrefl _ (Ha _ Hin)).
Qed.

(** ** Sorting *)

Section Sorting.

Context {A : Type} (le : A -> A -> bool).

Lemma insert_by_In x l z : In z (Py.insert_by le x l) <-> z = x \/ In z l.
Proof.
  induction l as [|y l IH]; simpl.
  - intuition.
  - destruct (le x y); simpl; rewrite ?IH; intuition.
Qed.

Lemma sort_by_In l z : In z (Py.sort_by le l) <-> In z l.
Proof.
  induction l as [|y l IH]; simpl; [tauto|].
  unfold Py.sort_by in *. rewrite insert_by_In, IH. intuition.
Qed.

Lemma insert_by_Permutation x l : Permutation (x :: l) (Py.insert_by le x l).
Proof.
  induction l as [|y l IH]; simpl; [reflexivity|].
  destruct (le x y); [reflexivity|].
  rewrite perm_swap. now constructor.
Qed.

Lemma sort_by_Permutation l : Permutation l (Py.sort_by le l).
Proof.
  induction l as [|y l IH]; simpl; [constructor|].
  etransitivity; [|apply insert_by_Permutation]. now constructor.
Qed.

End Sorting.

Lemma insert_sorted x l :
  StronglySorted str_lt l -> ~ In x l ->
  StronglySorted str_lt (Py.insert_by String.leb x l).
Proof.
  induction 1 as [|y l S IH Hy]; intros Hx; simpl.
  - repeat constructor.
  - destruct (String.leb x y) eqn:E.
    + apply str_leb_true in E as [E| ->]; [|now destruct Hx; left].
      constructor; [now constructor|].
      constructor; [assumption|].
      eapply Forall_impl; [|exact Hy]. intros z. now apply str_lt_trans.
    + apply str_leb_false in E.
      constructor; [apply IH; intros H; apply Hx; now right|].
      rewrite Forall_forall in *. intros z Hz.
      apply insert_by_In in Hz as [->|Hz]; auto.
Qed.

Lemma list_sort_sorted l : NoDup l -> StronglySorted str_lt (Py.list_sort l).
Proof.
  induction 1 as [|x l Hx ND IH]; simpl; [constructor|].
  apply insert_sorted; [exact IH|].
  unfold Py.list_sort in *. now rewrite sort_by_In.
Qed.

Lemma list_sort_In l z : In z (Py.list_sort l) <-> In z l.
Proof. apply sort_by_In. Qed.

(** ** Dictionaries *)

Section Dict.

Context {V : Type}.
Implicit Types (d : Py.dict V) (k : string) (v : V).

Lemma dict_lookup_In d k v : Py.dict_lookup d k = Some v -> In (k, v) d.
Proof.
  induction d as [|[k' v'] d IH]; simpl; [discriminate|].
  destruct (String.eqb_spec k k') as [->|N].
  - intros [= ->]. now left.
  - intros H. right. now apply IH.
Qed.

Lemma dict_lookup_None d k :
  Py.dict_lookup d k = None <-> ~ In k (map fst d).
Proof.
  induction d as [|[k' v'] d IH]; simpl; [tauto|].
  destruct (String.eqb_spec k k') as [->|N].
  - split; [discriminate|]. intros H. destruct H. now left.
  - rewrite IH. intuition congruence.
Qed.

Lemma In_dict_lookup d k v :
  NoDup (map fst d) -> In (k, v) d -> Py.dict_lookup d k = Some v.
Proof.
  induction d as [|[k' v'] d IH]; simpl; [tauto|].
  intros ND [E|Hin].
  - injection E as -> ->. now rewrite String.eqb_refl.
  - inversion ND as [|? ? Hk ND']; subst.
    destruct (String.eqb_spec k k') as [->|N]; [|now apply IH].
    destruct Hk. apply in_map_iff. now exists (k', v).
Qed.

Lemma dict_set_lookup d k v k' :
  Py.dict_lookup (Py.dict_set d k v) k' =
  if String.eqb k' k then Some v else Py.dict_lookup d k'.
Proof.
  induction d as [|[k0 v0] d IH]; simpl.
  - reflexivity.
  - destruct (String.eqb_spec k k0) as [->|N]; simpl.
    + now destruct (String.eqb k' k0).
    + rewrite IH.
      destruct (String.eqb_spec k' k0) as [->|N']; [|reflexivity].
      destruct (String.eqb_spec k0 k); congruence.
Qed.

Lemma dict_set_new d k v :
  Py.dict_lookup d k = None -> Py.dict_set d k v = d ++ [(k, v)].
Proof.
  induction d as [|[k0 v0] d IH]; simpl; [reflexivity|].
  destruct (String.eqb k k0); [discriminate|].
  intros H. now rewrite IH.
Qed.

Lemma dict_set_old_keys d k v v0 :
  Py.dict_lookup d k = Some v0 ->
  map fst (Py.dict_set d k v) = map fst d.
Proof.
  induction d as [|[k1 v1] d IH]; simpl; [discriminate|].
  destruct (String.eqb k k1); simpl; [reflexivity|].
  intros H. now rewrite IH.
Qed.

Lemma dict_set_NoDup d k v :
  NoDup (map fst d) -> NoDup (map fst (Py.dict_set d k v)).
Proof.
  intros ND. destruct (Py.dict_lookup d k) eqn:E.
  - now rewrite (dict_set_old_keys _ _ _ _ E).
  - rewrite (dict_set_new _ _ _ E), map_app. simpl.
    apply dict_lookup_None in E.
    apply NoDup_app; [assumption|repeat constructor; easy|].
    intros x Hx [<-|[]]. easy.
Qed.

End Dict.

(** ** The aggregation loop *)

Lemma contains_In l x : Py.contains l x = true <-> In x l.
Proof.
  unfold Py.contains. rewrite existsb_exists. split.
  - intros (y & Hy & E). apply String.eqb_eq in E. now subst.
  - intros H. exists x. split; [assumption|apply String.eqb_refl].
Qed.

Lemma contains_not_In l x : Py.contains l x = false <-> ~ In x l.
Proof.
  rewrite <- contains_In. destruct (Py.contains l x); intuition congruence.
Qed.

Lemma grouped_nil : grouped [] [].
Proof.
  split; simpl.
  - constructor.
  - discriminate.
  - intros _ _ _ _ [].
Qed.

Lemma In_snoc {A : Type} (l : list A) (e x : A) :
  In x (l ++ [e]) <-> In x l \/ x = e.
Proof. rewrite in_app_iff. simpl. intuition. Qed.

(** A visited entry whose author has no years yet. *)
Lemma group_step_new seen grp raw year :
  grouped seen grp ->
  Py.dict_lookup grp (rewrite_author raw) = None ->
  grouped (seen ++ [(raw, year)])
          (Py.dict_set grp (rewrite_author raw) [year]).
Proof.
  intros [K S N] E. split.
  - now apply dict_set_NoDup.
  - intros a ys. rewrite dict_set_lookup.
    destruct (String.eqb_spec a (rewrite_author raw)) as [->|Na].
    + intros [= <-]. split; [repeat constructor|]. split; [discriminate|].
      intros y. split.
      * intros [<-|[]]. exists raw. split; [|reflexivity].
        apply In_snoc. now right.
      * intros (raw' & Hin & Hr). apply In_snoc in Hin as [Hin|[= -> ->]].
        -- destruct (N _ E _ _ Hin Hr).
        -- now left.
    + intros L. destruct (S _ _ L) as (Hs & Hne & Hy).
      split; [assumption|]. split; [assumption|].
      intros y. rewrite Hy. split; intros (raw' & Hin & Hr); exists raw'.
      * split; [|assumption]. apply In_snoc. now left.
      * split; [|assumption].
        apply In_snoc in Hin as [Hin|[= -> ->]]; [assumption|].
        now destruct Na.
  - intros a. rewrite dict_set_lookup.
    destruct (String.eqb_spec a (rewrite_author raw)) as [->|Na];
      [discriminate|].
    intros L raw' y Hin. apply In_snoc in Hin as [Hin|[= -> ->]].
    + now apply (N _ L _ y).
    + congruence.
Qed.

(** A visited entry whose year is already recorded for its author. *)
Lemma group_step_known seen grp raw year years :
  grouped seen grp ->
  Py.dict_lookup grp (rewrite_author raw) = Some years ->
  In year years ->
  grouped (seen ++ [(raw, year)]) grp.
Proof.
  intros [K S N] E Hyear. split.
  - assumption.
  - intros a ys L. destruct (S _ _ L) as (Hs & Hne & Hy).
    split; [assumption|]. split; [assumption|].
    intros y. rewrite Hy. split; intros (raw' & Hin & Hr).
    + exists raw'. split; [|assumption]. apply In_snoc. now left.
    + apply In_snoc in Hin as [Hin|[= -> ->]]; [now exists raw'|].
      subst a. rewrite E in L. injection L as <-.
      now apply Hy.
  - intros a L raw' y Hin. apply In_snoc in Hin as [Hin|[= -> ->]].
    + now apply (N _ L _ y).
    + congruence.
Qed.

(** A visited entry that adds a year to an author already present. *)
Lemma group_step_add seen grp raw year years :
  grouped seen grp ->
  Py.dict_lookup grp (rewrite_author raw) = Some years ->
  ~ In year years ->
  grouped (seen ++ [(raw, year)])
          (Py.dict_set grp (rewrite_author raw)
                       (Py.list_sort (years ++ [year]))).
Proof.
  intros [K S N] E Hyear.
  destruct (S _ _ E) as (Hs0 & Hne0 & Hy0). split.
  - now apply dict_set_NoDup.
  - intros a ys. rewrite dict_set_lookup.
    destruct (String.eqb_spec a (rewrite_author raw)) as [->|Na].
    + intros [= <-]. split; [|split].
      * apply list_sort_sorted. apply NoDup_app.
        -- now apply sorted_NoDup.
        -- repeat constructor; easy.
        -- intros x Hx [<-|[]]. easy.
      * intros H. apply (f_equal (fun l => In year l)) in H. simpl in H.
        rewrite <- H. apply list_sort_In, In_snoc. now right.
      * intros y. rewrite list_sort_In, In_snoc, Hy0.
        split.
        -- intros [(raw' & Hin & Hr)| ->].
           ++ exists raw'. split; [|assumption]. apply In_snoc. now left.
           ++ exists raw. split; [|reflexivity]. apply In_snoc. now right.
        -- intros (raw' & Hin & Hr).
           apply In_snoc in Hin as [Hin|[= -> ->]]; [|now right].
           left. now exists raw'.
    + intros L. destruct (S _ _ L) as (Hs & Hne & Hy).
      split; [assumption|]. split; [assumption|].
      intros y. rewrite Hy. split; intros (raw' & Hin & Hr); exists raw'.
      * split; [|assumption]. apply In_snoc. now left.
      * split; [|assumption].
        apply In_snoc in Hin as [Hin|[= -> ->]]; [assumption|].
        now destruct Na.
  - intros a. rewrite dict_set_lookup.
    destruct (String.eqb_spec a (rewrite_author raw)) as [->|Na];
      [discriminate|].
    intros L raw' y Hin. apply In_snoc in Hin as [Hin|[= -> ->]].
    + now apply (N _ L _ y).
    + congruence.
Qed.

Lemma group_step_grouped seen grp e :
  grouped seen grp -> grouped (seen ++ [e]) (group_step grp e).
Proof.
  intros G. destruct e as [raw year]. unfold group_step.
  destruct (Py.dict_lookup grp (rewrite_author raw)) as [years|] eqn:E.
  - destruct (Py.contains years year) eqn:C.
    + apply contains_In in C. eapply group_step_known; eassumption.
    + apply contains_not_In in C. now apply group_step_add.
  - now apply group_step_new.
Qed.

Lemma fold_group_grouped l : forall seen grp,
  grouped seen grp -> grouped (seen ++ l) (fold_left group_step l grp).
Proof.
  induction l as [|e l IH]; intros seen grp G; simpl.
  - now rewrite app_nil_r.
  - replace (seen ++ e :: l) with ((seen ++ [e]) ++ l)
      by now rewrite <- app_assoc.
    apply IH. now apply group_step_grouped.
Qed.

Lemma group_owners_grouped set_iter owners_year :
  grouped (set_iter owners_year) (group_owners set_iter owners_year).
Proof. apply (fold_group_grouped _ [] []), grouped_nil. Qed.

(** ** Splitting on a separator *)

Lemma append_assoc (a b c : string) :
  ((a ++ b) ++ c = a ++ (b ++ c))%string.
Proof. induction a as [|x a IH]; simpl; [reflexivity|now rewrite IH]. Qed.

Lemma append_nil_r (a : string) : (a ++ "")%string = a.
Proof. induction a as [|x a IH]; simpl; [reflexivity|now rewrite IH]. Qed.

Lemma mentions_append c a b :
  mentions c (a ++ b) = mentions c a || mentions c b.
Proof.
  induction a as [|x a IH]; simpl; [reflexivity|].
  now rewrite IH, orb_assoc.
Qed.

Lemma split_on_plain sep s :
  mentions sep s = false -> Py.split_on sep s = [s].
Proof.
  induction s as [|c s IH]; simpl; [reflexivity|].
  intros H. apply orb_false_elim in H as [Hc Hs].
  now rewrite Hc, IH.
Qed.

Lemma split_on_append sep a b :
  mentions sep a = false ->
  Py.split_on sep (a ++ String sep b) = a :: Py.split_on sep b.
Proof.
  induction a as [|c a IH]; simpl.
  - now rewrite Ascii.eqb_refl.
  - intros H. apply orb_false_elim in H as [Hc Hs].
    now rewrite Hc, IH.
Qed.

Lemma split_on_concat sep l :
  l <> [] -> Forall (fun s => mentions sep s = false) l ->
  Py.split_on sep (String.concat (String sep "") l) = l.
Proof.
  intros Hne Hl. induction Hl as [|s l Hs Hl IH]; [easy|].
  destruct l as [|s' l].
  - simpl. now apply split_on_plain.
  - change (String.concat (String sep "") (s :: s' :: l))
      with (s ++ String sep (String.concat (String sep "") (s' :: l)))%string.
    rewrite split_on_append by assumption.
    now rewrite IH.
Qed.


(** ** Decimal numerals *)

#[local] Arguments Py.digit_val : simpl never.
#[local] Arguments Py.digit_char : simpl never.
#[local] Arguments Py.isspace : simpl never.
#[local] Arguments Py.int_space : simpl never.
#[local] Arguments N.mul : simpl never.
#[local] Arguments N.add : simpl never.
#[local] Arguments N.modulo : simpl never.
#[local] Arguments N.div : simpl never.
#[local] Arguments N.pow : simpl never.

Lemma digit_val_char d : (d < 10)%N -> Py.digit_val (Py.digit_char d) = Some d.
Proof.
  intros H. unfold Py.digit_val, Py.digit_char.
  rewrite N_ascii_embedding by lia.
  replace ((48 <=? 48 + d)%N) with true by (symmetry; apply N.leb_le; lia).
  replace ((48 + d <=? 57)%N) with true by (symmetry; apply N.leb_le; lia).
  cbn [andb]. f_equal. lia.
Qed.

Lemma digit_val_range c d :
  Py.digit_val c = Some d -> (N_of_ascii c = 48 + d /\ d < 10)%N.
Proof.
  unfold Py.digit_val.
  destruct (N.leb_spec 48 (N_of_ascii c)); [|discriminate].
  destruct (N.leb_spec (N_of_ascii c) 57); [|discriminate].
  cbn [andb]. intros [= <-]. lia.
Qed.

Lemma digit_not_space c d : Py.digit_val c = Some d -> Py.isspace c = false.
Proof.
  intros H. apply digit_val_range in H as [E Hd]. unfold Py.isspace.
  rewrite E.
  repeat match goal with
         | |- context [(?a <=? ?b)%N] => destruct (N.leb_spec a b)
         | |- context [(?a =? ?b)%N] => destruct (N.eqb_spec a b)
         end; cbn [andb orb]; try reflexivity; lia.
Qed.

Lemma digit_not_char c d n :
  Py.digit_val c = Some d -> (n < 48 \/ 57 < n)%N -> (n < 256)%N ->
  Ascii.eqb c (ascii_of_N n) = false.
Proof.
  intros H Hn Hb. apply digit_val_range in H as [E Hd].
  destruct (Ascii.eqb_spec c (ascii_of_N n)) as [->|]; [|reflexivity].
  rewrite N_ascii_embedding in E by assumption. lia.
Qed.

(** What [int] computes on a string that starts with digits. *)
Lemma int_digits_digits s : forall acc b rest,
  all_digits s = true -> s <> "" ->
  Py.int_digits acc b (s ++ rest) =
  Py.int_digits (dec_value acc s) true rest.
Proof.
  induction s as [|c s IH]; intros acc b rest Hs Hne; [easy|].
  simpl in *. destruct (Py.digit_val c) as [d|]; [|discriminate].
  destruct s as [|c' s]; [reflexivity|].
  now apply IH.
Qed.

Lemma int_digits_all s acc b :
  all_digits s = true -> s <> "" ->
  Py.int_digits acc b s = Some (dec_value acc s).
Proof.
  intros Hs Hne. rewrite <- (append_nil_r s) at 1.
  now rewrite int_digits_digits.
Qed.

Lemma all_digits_append a b :
  all_digits (a ++ b) = all_digits a && all_digits b.
Proof.
  induction a as [|c a IH]; simpl; [reflexivity|].
  now destruct (Py.digit_val c).
Qed.

Lemma dec_value_append a b : forall acc,
  all_digits a = true ->
  dec_value acc (a ++ b) = dec_value (dec_value acc a) b.
Proof.
  induction a as [|c a IH]; intros acc H; simpl in *; [reflexivity|].
  destruct (Py.digit_val c); [now apply IH|discriminate].
Qed.

Lemma length_snoc s c : String.length (s ++ String c "") = S (String.length s).
Proof. induction s; simpl; congruence. Qed.

Lemma one_digit n a :
  (n < 10)%N ->
  let s := String (Py.digit_char (n mod 10)) "" in
  all_digits s = true /\ s <> "" /\
  dec_value a s = (a * 10 ^ N.of_nat (String.length s) + n)%N.
Proof.
  intros Hn. simpl.
  rewrite digit_val_char by (apply N.mod_lt; lia).
  repeat split; [easy|].
  rewrite N.mod_small by assumption. change (10 ^ 1)%N with 10%N. lia.
Qed.

(** The numeral [digits_fuel] prints, when the fuel is enough. *)
Lemma digits_fuel_spec fuel : forall n acc,
  (n < 10 * 2 ^ N.of_nat fuel)%N ->
  exists s, Py.digits_fuel fuel n acc = (s ++ acc)%string /\
            all_digits s = true /\ s <> "" /\
            forall a, dec_value a s = (a * 10 ^ N.of_nat (String.length s) + n)%N.
Proof.
  induction fuel as [|k IH]; intros n acc Hn.
  - exists (String (Py.digit_char (n mod 10)) ""). split; [reflexivity|].
    change (2 ^ N.of_nat 0)%N with 1%N in Hn.
    assert (Hn' : (n < 10)%N) by lia.
    split; [|split]; [| |intros a]; now apply one_digit.
  - cbn [Py.digits_fuel]. destruct (N.ltb_spec n 10) as [Hlt|Hge].
    + exists (String (Py.digit_char (n mod 10)) ""). split; [reflexivity|].
      split; [|split]; [| |intros a]; now apply one_digit.
    + destruct (IH (n / 10)%N (String (Py.digit_char (n mod 10)) acc))
        as (s & Es & Ds & Ns & Vs).
      { apply N.Div0.div_lt_upper_bound.
        rewrite Nat2N.inj_succ, N.pow_succ_r' in Hn. lia. }
      exists (s ++ String (Py.digit_char (n mod 10)) "")%string.
      rewrite Es, append_assoc. split; [reflexivity|].
      split; [|split].
      * rewrite all_digits_append, Ds. simpl.
        now rewrite digit_val_char by (apply N.mod_lt; lia).
      * destruct s; easy.
      * intros a. rewrite dec_value_append by assumption. simpl.
        rewrite digit_val_char by (apply N.mod_lt; lia).
        rewrite Vs, length_snoc, Nat2N.inj_succ, N.pow_succ_r'.
        pose proof (N.div_mod n 10 ltac:(lia)). lia.
Qed.

Lemma str_of_N_spec n :
  all_digits (Py.str_of_N n) = true /\ Py.str_of_N n <> "" /\
  dec_value 0 (Py.str_of_N n) = n.
Proof.
  unfold Py.str_of_N.
  destruct (digits_fuel_spec (N.to_nat (N.log2 n)) n "") as (s & E & D & Ne & V).
  - rewrite N2Nat.id. destruct n as [|p]; [reflexivity|].
    pose proof (N.log2_spec (N.pos p) ltac:(lia)) as [_ H].
    rewrite N.pow_succ_r' in H. lia.
  - rewrite E, append_nil_r. repeat split; try assumption.
    rewrite V. lia.
Qed.

Lemma all_digits_no_space s : all_digits s = true -> has_space s = false.
Proof.
  induction s as [|c s IH]; simpl; [reflexivity|].
  destruct (Py.digit_val c) as [d|] eqn:E; [|discriminate].
  intros H. now rewrite (digit_not_space _ _ E), IH.
Qed.

Lemma all_digits_mentions c s :
  Py.digit_val c = None -> all_digits s = true -> mentions c s = false.
Proof.
  intros Hc. induction s as [|x s IH]; simpl; [reflexivity|].
  destruct (Py.digit_val x) as [d|] eqn:E; [|discriminate].
  intros H. rewrite IH by assumption.
  destruct (Ascii.eqb_spec x c) as [->|]; [congruence|reflexivity].
Qed.

Lemma int_space_isspace c : Py.isspace c = false -> Py.int_space c = false.
Proof.
  unfold Py.isspace, Py.int_space.
  repeat match goal with
         | |- context [(?a <=? ?b)%N] => destruct (N.leb_spec a b)
         | |- context [(?a =? ?b)%N] => destruct (N.eqb_spec a b)
         end; cbn [andb orb]; try reflexivity; try discriminate; lia.
Qed.

Lemma lstrip_no_space s : has_space s = false -> Py.lstrip s = s.
Proof.
  destruct s as [|c s]; simpl; [reflexivity|].
  intros H. apply orb_false_elim in H as [Hc _].
  now rewrite (int_space_isspace c Hc).
Qed.

Lemma rstrip_no_space s : has_space s = false -> Py.rstrip s = s.
Proof.
  induction s as [|c s IH]; simpl; [reflexivity|].
  intros H. apply orb_false_elim in H as [Hc Hs].
  rewrite IH, (int_space_isspace c Hc) by assumption. now destruct s.
Qed.

Lemma strip_no_space s : has_space s = false -> Py.strip s = s.
Proof.
  intros H. unfold Py.strip. rewrite lstrip_no_space by assumption.
  now apply rstrip_no_space.
Qed.

(** [int] reads a string of digits as the number it denotes. *)
Lemma int_all_digits s :
  all_digits s = true -> s <> "" -> Py.int s = Ok (Z.of_N (dec_value 0 s)).
Proof.
  intros D Ne. unfold Py.int.
  rewrite strip_no_space by now apply all_digits_no_space.
  destruct s as [|c t]; [easy|].
  assert (exists d, Py.digit_val c = Some d) as [d Hd].
  { simpl in D. destruct (Py.digit_val c); [eauto|discriminate]. }
  change "-"%char with (ascii_of_N 45). change "+"%char with (ascii_of_N 43).
  rewrite (digit_not_char c d 45 Hd), (digit_not_char c d 43 Hd) by lia.
  now rewrite int_digits_all.
Qed.

(** [int] reads back the digits of a natural number. *)
Lemma int_str_of_N n : Py.int (Py.str_of_N n) = Ok (Z.of_N n).
Proof.
  destruct (str_of_N_spec n) as (D & Ne & V).
  now rewrite int_all_digits, V.
Qed.

Lemma str_of_N_mentions c n :
  Py.digit_val c = None -> mentions c (Py.str_of_N n) = false.
Proof.
  intros Hc. apply all_digits_mentions; [assumption|]. apply str_of_N_spec.
Qed.

(** ** Reading the log git prints *)

Section ReadingTheLog.

Variable utcoffset : Z -> Z.

Lemma log_line_one_line c :
  mentions LF (fst c) = false -> mentions LF (log_line c) = false.
Proof.
  intros H. unfold log_line. rewrite mentions_append, H. cbn [mentions orb].
  now rewrite str_of_N_mentions.
Qed.

Lemma log_line_fields c :
  mentions NUL (fst c) = false ->
  Py.split_on NUL (log_line c) = [fst c; Py.str_of_N (snd c)].
Proof.
  intros H. unfold log_line. rewrite split_on_append by assumption.
  now rewrite split_on_plain by now apply str_of_N_mentions.
Qed.

Lemma owner_year_fields c :
  well_formed utcoffset c ->
  owner_year utcoffset [fst c; Py.str_of_N (snd c)]
  = Ok (commit_entry utcoffset c).
Proof.
  intros (_ & _ & _ & y & Hy). unfold owner_year, commit_entry.
  rewrite Hy. cbn [Py.index nth_error bind].
  rewrite int_str_of_N. cbn [bind].
  unfold commit_year in Hy.
  destruct (Py.fromtimestamp utcoffset (Z.of_N (snd c))) as [year|e];
    [|discriminate].
  cbn [bind] in *. now injection Hy as <-.
Qed.

Lemma comprehension_map {A B : Type} (f : A -> result B) (g : A -> B) l :
  Forall (fun x => f x = Ok (g x)) l -> comprehension f l = Ok (map g l).
Proof.
  induction 1 as [|x l Hx Hl IH]; simpl; [reflexivity|].
  now rewrite Hx, IH.
Qed.

(** Lines 42-47 read a well-formed, non-empty history back, oldest commit
    first. *)
Lemma parse_log_history commits :
  commits <> [] -> Forall (well_formed utcoffset) commits ->
  parse_log utcoffset (git_log_output commits)
  = Ok (map (commit_entry utcoffset) commits).
Proof.
  intros Hne Hwf. unfold parse_log, git_log_output.
  rewrite split_on_concat.
  - rewrite map_map, map_rev, rev_involutive.
    assert (E : map (fun c => Py.split_on NUL (log_line c)) commits
                = map (fun c => [fst c; Py.str_of_N (snd c)]) commits).
    { apply map_ext_in. intros c Hc. apply log_line_fields.
      rewrite Forall_forall in Hwf. now apply Hwf. }
    rewrite E.
    clear E Hne. induction Hwf as [|c l Hc Hl IH]; simpl; [reflexivity|].
    rewrite owner_year_fields by assumption. cbn [bind].
    now rewrite IH.
  - intros E. apply Hne. apply (f_equal (@rev _)) in E.
    rewrite map_rev in E. rewrite rev_involutive in E.
    now apply map_eq_nil in E.
  - apply Forall_map, Forall_rev.
    eapply Forall_impl; [|exact Hwf].
    intros c (H & _). now apply log_line_one_line.
Qed.

End ReadingTheLog.

(** ** The ownerships of a history *)

Lemma grouped_ext seen seen' grp :
  (forall x, In x seen <-> In x seen') -> grouped seen grp -> grouped seen' grp.
Proof.
  intros E [K S N]. split; [assumption| |].
  - intros a ys L. destruct (S _ _ L) as (Hs & Hne & Hy).
    split; [assumption|]. split; [assumption|].
    intros y. rewrite Hy. split; intros (raw & Hin & Hr); exists raw;
      (split; [now apply E|assumption]).
  - intros a L raw y Hin. apply (N _ L _ y). now apply E.
Qed.

Lemma ownerships_In f grp r :
  In r (ownerships f grp) <->
  exists a ys, In (a, ys) grp /\ r = (f, a, String.concat ", " ys).
Proof.
  unfold ownerships. rewrite in_map_iff. split.
  - intros ([a ys] & <- & Hin). now exists a, ys.
  - intros (a & ys & Hin & ->). now exists (a, ys).
Qed.

Lemma ownerships_authors f grp :
  map owner_author (ownerships f grp) = map fst grp.
Proof. unfold ownerships. rewrite map_map. now apply map_ext. Qed.

Lemma ownerships_files f grp r : In r (ownerships f grp) -> owner_file r = f.
Proof. rewrite ownerships_In. now intros (a & ys & _ & ->). Qed.

Lemma file_authors_of_log_eq utcoffset set_iter f out owners_year :
  parse_log utcoffset out = Ok owners_year ->
  file_authors_of_log utcoffset set_iter f out
  = Ok (ownerships f (group_owners set_iter owners_year)).
Proof. intros E. unfold file_authors_of_log. now rewrite E. Qed.

Section History.

Variable utcoffset : Z -> Z.
Variable set_iter : list (string * string) -> list (string * string).
Hypothesis set_iter_order : set_order set_iter.

Variable commits : list CommitRecord.
Hypothesis commits_well_formed : Forall (well_formed utcoffset) commits.

Lemma entry_of_commit raw y :
  In (raw, y) (map (commit_entry utcoffset) commits) <->
  exists c, In c commits /\ fst c = raw /\ commit_year utcoffset c = Ok y.
Proof.
  rewrite in_map_iff. split.
  - intros (c & E & Hin). exists c. split; [assumption|].
    pose proof (proj1 (Forall_forall _ _) commits_well_formed) as W.
    destruct (W c Hin) as (_ & _ & _ & y' & Hy').
    unfold commit_entry in E. rewrite Hy' in E. now injection E as <- <-.
  - intros (c & Hin & <- & Hy). exists c. split; [|assumption].
    unfold commit_entry. now rewrite Hy.
Qed.

Lemma grouped_history :
  grouped (map (commit_entry utcoffset) commits)
          (group_owners set_iter (map (commit_entry utcoffset) commits)).
Proof.
  eapply grouped_ext; [|apply group_owners_grouped].
  intros x. apply set_iter_order.
Qed.

(** The years of each group are those of the commits of its author. *)
Lemma grouped_history_years a ys :
  In (a, ys) (group_owners set_iter (map (commit_entry utcoffset) commits)) ->
  StronglySorted str_lt ys /\ ys <> [] /\ author_years utcoffset commits a ys.
Proof.
  intros Hin. destruct grouped_history as [K S N].
  apply (In_dict_lookup _ _ _ K) in Hin.
  destruct (S _ _ Hin) as (Hs & Hne & Hy).
  split; [assumption|]. split; [assumption|].
  intros y. rewrite Hy. split.
  - intros (raw & Hraw & Hr). apply entry_of_commit in Hraw as (c & Hc & <- & Hcy).
    now exists c.
  - intros (c & Hc & Hr & Hcy). exists (fst c). split; [|assumption].
    apply entry_of_commit. now exists c.
Qed.

(** Every commit's canonical author has a group. *)
Lemma grouped_history_authors c :
  In c commits ->
  exists ys,
    In (rewrite_author (fst c), ys)
       (group_owners set_iter (map (commit_entry utcoffset) commits)).
Proof.
  intros Hc. destruct grouped_history as [K S N].
  destruct (Py.dict_lookup
              (group_owners set_iter (map (commit_entry utcoffset) commits))
              (rewrite_author (fst c))) as [ys|] eqn:L.
  - exists ys. now apply dict_lookup_In.
  - exfalso.
    pose proof (proj1 (Forall_forall _ _) commits_well_formed) as W.
    destruct (W c Hc) as (_ & _ & _ & y & Hy).
    apply (N _ L (fst c) y); [|reflexivity].
    apply entry_of_commit. now exists c.
Qed.

(** The ownership records of a file with a well-formed, non-empty history:
    [file_authors] returns, one record per canonical author, each with the
    author's years in strictly increasing order. *)
Lemma history_ownerships f :
  commits <> [] ->
  exists owners,
    file_authors_of_log utcoffset set_iter f (git_log_output commits)
    = Ok owners /\
    NoDup (map owner_author owners) /\
    (forall r, In r owners ->
       owner_file r = f /\
       exists ys, owner_years r = String.concat ", " ys /\
                  StronglySorted str_lt ys /\ ys <> [] /\
                  author_years utcoffset commits (owner_author r) ys) /\
    (forall c, In c commits ->
       exists r, In r owners /\ owner_author r = rewrite_author (fst c)).
Proof.
  intros Hne.
  exists (ownerships f (group_owners set_iter
                          (map (commit_entry utcoffset) commits))).
  split; [|split; [|split]].
  - apply file_authors_of_log_eq. now apply parse_log_history.
  - rewrite ownerships_authors. apply grouped_history.
  - intros r Hr. split; [now apply ownerships_files in Hr|].
    apply ownerships_In in Hr as (a & ys & Hin & ->).
    exists ys. split; [reflexivity|]. now apply grouped_history_years.
  - intros c Hc. destruct (grouped_history_authors c Hc) as (ys & Hin).
    exists (f, rewrite_author (fst c), String.concat ", " ys).
    split; [|reflexivity]. apply ownerships_In. now exists (rewrite_author (fst c)), ys.
Qed.

(** The record of an author whose years are known. *)
Lemma author_ownership f a years :
  StronglySorted str_lt years -> years <> [] ->
  author_years utcoffset commits a years ->
  exists owners,
    file_authors_of_log utcoffset set_iter f (git_log_output commits)
    = Ok owners /\
    In (f, a, String.concat ", " years) owners /\
    forall r, In r owners -> owner_author r = a ->
              r = (f, a, String.concat ", " years).
Proof.
  intros Hs Hne Hy.
  assert (Hc : commits <> []).
  { destruct years as [|y years]; [easy|].
    destruct (proj1 (Hy y) (or_introl eq_refl)) as (c & Hin & _).
    intros ->. destruct Hin. }
  destruct (history_ownerships f Hc) as (owners & E & ND & Hr & Hcs).
  exists owners. split; [assumption|].
  assert (U : forall r, In r owners -> owner_author r = a ->
                        r = (f, a, String.concat ", " years)).
  { intros [[f' a'] ystr] Hin Ha.
    destruct (Hr _ Hin) as (Hf & ys & Eys & Sys & _ & Hys).
    unfold owner_author, owner_file, owner_years in *.
    simpl in Ha, Hf, Eys, Hys. subst f' a' ystr. do 2 f_equal.
    apply sorted_same_elements; try assumption.
    intros y. now rewrite (Hys y), (Hy y). }
  split; [|assumption].
  destruct years as [|y years]; [easy|].
  destruct (proj1 (Hy y) (or_introl eq_refl)) as (c & Hin & Ha & _).
  destruct (Hcs c Hin) as (r & Hrin & Hra).
  rewrite Ha in Hra. now rewrite <- (U r Hrin Hra).
Qed.

End History.

(** ** The concrete iteration orders are iteration orders *)

Lemma pair_eqb_eq x y : pair_eqb x y = true <-> x = y.
Proof.
  destruct x as [a b], y as [c d]. unfold pair_eqb. simpl.
  rewrite andb_true_iff, !String.eqb_eq. split.
  - now intros [-> ->].
  - now intros [= -> ->].
Qed.

Lemma first_seen_In l x : In x (first_seen l) <-> In x l.
Proof.
  induction l as [|y l IH]; simpl; [tauto|].
  rewrite filter_In, IH, negb_true_iff.
  destruct (pair_eqb y x) eqn:E.
  - apply pair_eqb_eq in E. intuition congruence.
  - assert (y <> x) by (intros ->; now rewrite (proj2 (pair_eqb_eq x x)) in E).
    intuition.
Qed.

Lemma first_seen_NoDup l : NoDup (first_seen l).
Proof.
  induction l as [|y l IH]; simpl; constructor.
  - rewrite filter_In, negb_true_iff.
    intros [_ E]. now rewrite (proj2 (pair_eqb_eq y y)) in E.
  - now apply NoDup_filter.
Qed.

Lemma first_seen_order : set_order first_seen.
Proof. intros l. split; [apply first_seen_NoDup|apply first_seen_In]. Qed.

Lemma last_first_order : set_order last_first.
Proof.
  intros l. unfold last_first. split.
  - apply NoDup_rev, first_seen_NoDup.
  - intros x. rewrite <- in_rev. apply first_seen_In.
Qed.

(** ** C1: a file without commits *)

(** C1 (the code departs from the claim).  git prints nothing for a history
    without commits, and on that output [file_authors] does not return an
    empty list: ["".split("\n")] is [[""]], its one line splits into the one
    field [""], and [tpl[1]] on line 46 raises IndexError, whatever the time
    zone and the iteration order.  A run over a repository with such a file
    ends with that exception, before any header is applied. *)
Theorem empty_log_raises :
  git_log_output [] = "" /\
  (forall utcoffset set_iter f,
     file_authors_of_log utcoffset set_iter f "" = Raise IndexError) /\
  main utc first_seen staged_repo []
  = (Raise IndexError,
     [["git"; "ls-files"];
      ["git"; "log"; "--pretty=format:%an%x00%at"; "new.txt"]]).
Proof. repeat split. Qed.

(** ** C2: the sorted copy *)

(** C2.  Line 61 has no effect: with or without it [file_authors] returns
    the same list in the same order (or raises the same exception), and runs
    the same commands. *)
Theorem sorted_call_has_no_effect :
  forall utcoffset set_iter f,
    (forall out,
       file_authors_of_log utcoffset set_iter f out
       = file_authors_of_log_without_sorted utcoffset set_iter f out) /\
    (forall run_process tr,
       file_authors utcoffset set_iter run_process f tr
       = file_authors_without_sorted utcoffset set_iter run_process f tr).
Proof.
  intros utcoffset set_iter f. split.
  - intros out. unfold file_authors_of_log, file_authors_of_log_without_sorted.
    now destruct (parse_log utcoffset out).
  - intros run_process tr.
    unfold file_authors, file_authors_without_sorted, pbind, lift.
    destruct (git run_process (log_cmd f) tr) as [[out|e] tr'];
      [|reflexivity].
    unfold file_authors_of_log, file_authors_of_log_without_sorted.
    now destruct (parse_log utcoffset out).
Qed.

(** The list that line 61 drops is not in general the list that is returned:
    the returned order is the insertion order of the groups. *)
Lemma sorted_copy_differs :
  file_authors_of_log utc first_seen "main.go"
                      (git_log_output two_author_history)
  = Ok [("main.go", "Ada", "2019"); ("main.go", "Bob", "2020, 2021")] /\
  Py.sorted_reverse owner_author
    [("main.go", "Ada", "2019"); ("main.go", "Bob", "2020, 2021")]
  = [("main.go", "Bob", "2020, 2021"); ("main.go", "Ada", "2019")].
Proof. split; vm_compute; reflexivity. Qed.

(** ** C3: the years of an author are sorted *)

Lemma well_formed_Permutation utcoffset l l' :
  Permutation l l' ->
  Forall (well_formed utcoffset) l -> Forall (well_formed utcoffset) l'.
Proof.
  intros P H. rewrite Forall_forall in *. intros c Hc.
  apply H. eapply Permutation_in; [symmetry; exact P|exact Hc].
Qed.

Lemma author_years_Permutation utcoffset l l' a years :
  Permutation l l' ->
  author_years utcoffset l a years -> author_years utcoffset l' a years.
Proof.
  intros P H y. rewrite (H y).
  split; intros (c & Hc & Hr); exists c; (split; [|assumption]).
  - eapply Permutation_in; [exact P|exact Hc].
  - eapply Permutation_in; [symmetry; exact P|exact Hc].
Qed.

Lemma author_years_same utcoffset l a years years' :
  (forall y, In y years <-> In y years') ->
  author_years utcoffset l a years -> author_years utcoffset l a years'.
Proof. intros E H y. now rewrite <- E. Qed.

(** C3, as the code has it.  For every file whose log can be read (each
    commit is well formed: an author name without line feed, carriage
    return or NUL, a timestamp that [datetime.fromtimestamp] accepts),
    every canonical author whose commits span exactly the years 2019, 2021
    and 2020, and every order of the commits of the history,
    [file_authors] returns, and the one record of that author has the
    years "2019, 2020, 2021". *)
Theorem years_sorted_per_author :
  forall utcoffset set_iter f commits a,
    set_order set_iter ->
    Forall (well_formed utcoffset) commits ->
    author_years utcoffset commits a ["2019"; "2021"; "2020"] ->
    forall reordered, Permutation commits reordered ->
    exists owners,
      file_authors_of_log utcoffset set_iter f (git_log_output reordered)
      = Ok owners /\
      In (f, a, "2019, 2020, 2021") owners /\
      forall r, In r owners -> owner_author r = a ->
                owner_years r = "2019, 2020, 2021".
Proof.
  intros utcoffset set_iter f commits a Hset Hwf Hy reordered P.
  destruct (author_ownership utcoffset set_iter Hset reordered
              (well_formed_Permutation _ _ _ P Hwf) f a
              ["2019"; "2020"; "2021"])
    as (owners & E & Hin & U).
  - repeat constructor; reflexivity.
  - discriminate.
  - apply (author_years_Permutation _ commits); [assumption|].
    eapply author_years_same; [|exact Hy].
    intros y. simpl. tauto.
  - exists owners. split; [assumption|]. split; [assumption|].
    intros r Hr Ha. now rewrite (U r Hr Ha).
Qed.

Lemma alias_history_well_formed : Forall (well_formed utc) alias_history.
Proof.
  repeat constructor; try reflexivity;
    eexists; vm_compute; reflexivity.
Qed.

Lemma alias_history_years :
  author_years utc alias_history "Alvar Penning" ["2019"; "2021"; "2020"].
Proof.
  intros y. split.
  - intros [<-|[<-|[<-|[]]]].
    + exists ("Alvar", in_2019). repeat split; simpl; tauto.
    + exists ("Alvar Penning", in_2021). repeat split; simpl; tauto.
    + exists ("Alvar", in_2020). repeat split; simpl; tauto.
  - intros (c & [<-|[<-|[<-|[]]]] & _ & E); vm_compute in E;
      injection E as <-; simpl; tauto.
Qed.

Lemma years_sorted_per_author_witness :
  set_order first_seen /\
  Forall (well_formed utc) alias_history /\
  author_years utc alias_history "Alvar Penning" ["2019"; "2021"; "2020"] /\
  Permutation alias_history (rev alias_history) /\
  exists owners,
    file_authors_of_log utc first_seen "main.go"
                        (git_log_output (rev alias_history))
    = Ok owners /\
    In ("main.go", "Alvar Penning", "2019, 2020, 2021") owners /\
    forall r, In r owners -> owner_author r = "Alvar Penning" ->
              owner_years r = "2019, 2020, 2021".
Proof.
  split; [exact first_seen_order|].
  split; [exact alias_history_well_formed|].
  split; [exact alias_history_years|].
  split; [apply Permutation_rev|].
  apply (years_sorted_per_author utc first_seen "main.go" alias_history
           "Alvar Penning").
  - exact first_seen_order.
  - exact alias_history_well_formed.
  - exact alias_history_years.
  - apply Permutation_rev.
Defined.

(** C3 as stated fails: the commits of this file span exactly the years
    2019, 2021 and 2020, and yet neither of its two records has the years
    "2019, 2020, 2021", because no single author has commits in all three
    years. *)
Lemma years_of_file_not_of_each_author :
  Forall (well_formed utc) two_author_history /\
  history_years utc two_author_history ["2019"; "2021"; "2020"] /\
  file_authors_of_log utc first_seen "main.go"
                      (git_log_output two_author_history)
  = Ok [("main.go", "Ada", "2019"); ("main.go", "Bob", "2020, 2021")] /\
  String.eqb (owner_years ("main.go", "Ada", "2019")) "2019, 2020, 2021"
  = false.
Proof.
  split; [|split; [|split]].
  - repeat constructor; try reflexivity; eexists; vm_compute; reflexivity.
  - intros y. split.
    + intros [<-|[<-|[<-|[]]]].
      * exists ("Ada", in_2019). split; [simpl; tauto|reflexivity].
      * exists ("Bob", in_2021). split; [simpl; tauto|reflexivity].
      * exists ("Bob", in_2020). split; [simpl; tauto|reflexivity].
    + intros (c & [<-|[<-|[<-|[]]]] & E); vm_compute in E;
        injection E as <-; simpl; tauto.
  - vm_compute. reflexivity.
  - reflexivity.
Qed.

(** ** C4: one author under two names *)

Lemma all_same_singleton {A B : Type} (g : A -> B) (l : list A) (x : A) :
  NoDup (map g l) -> In x l -> (forall r, In r l -> r = x) -> l = [x].
Proof.
  intros ND Hx U. destruct l as [|r1 l]; [destruct Hx|].
  rewrite (U r1 (or_introl eq_refl)) in *.
  destruct l as [|r2 l]; [reflexivity|].
  rewrite (U r2 (or_intror (or_introl eq_refl))) in ND.
  simpl in ND. inversion ND as [|? ? Hn _]. destruct Hn. now left.
Qed.

(** C4.  A history made of commits by "Alvar" in 2020 and commits by
    "Alvar Penning" in 2021, at least one of each and in any order, gives
    for a.txt exactly the one record (a.txt, "Alvar Penning", "2020, 2021"). *)
Theorem alvar_is_alvar_penning :
  forall utcoffset set_iter commits,
    set_order set_iter ->
    (forall c, In c commits ->
       fst c = "Alvar" /\ commit_in_year utcoffset c 2020 \/
       fst c = "Alvar Penning" /\ commit_in_year utcoffset c 2021) ->
    (exists c, In c commits /\ fst c = "Alvar") ->
    (exists c, In c commits /\ fst c = "Alvar Penning") ->
    file_authors_of_log utcoffset set_iter "a.txt" (git_log_output commits)
    = Ok [("a.txt", "Alvar Penning", "2020, 2021")].
Proof.
  intros utcoffset set_iter commits Hset Hkind (c1 & Hc1 & A1) (c2 & Hc2 & A2).
  assert (Y : forall c, In c commits ->
                rewrite_author (fst c) = "Alvar Penning" /\
                (fst c = "Alvar" /\ commit_year utcoffset c = Ok "2020" \/
                 fst c = "Alvar Penning" /\ commit_year utcoffset c = Ok "2021")).
  { intros c Hc. unfold commit_year.
    destruct (Hkind c Hc) as [[H1 H2]|[H1 H2]];
      unfold commit_in_year in H2; rewrite H1, H2;
      (split; [reflexivity|]); [left|right]; split; reflexivity. }
  assert (Hwf : Forall (well_formed utcoffset) commits).
  { apply Forall_forall. intros c Hc. unfold well_formed.
    destruct (Y c Hc) as [_ [[-> E]|[-> E]]];
      (split; [reflexivity|split; [reflexivity|split; [reflexivity|eauto]]]). }
  assert (Hy : author_years utcoffset commits "Alvar Penning"
                            ["2020"; "2021"]).
  { intros y. split.
    - intros [<-|[<-|[]]].
      + exists c1. destruct (Y c1 Hc1) as [R [[_ E]|[F _]]]; [auto|congruence].
      + exists c2. destruct (Y c2 Hc2) as [R [[F _]|[_ E]]]; [congruence|auto].
    - intros (c & Hc & _ & E).
      destruct (Y c Hc) as [_ [[_ E']|[_ E']]]; rewrite E' in E;
        injection E as <-; simpl; tauto. }
  destruct (author_ownership utcoffset set_iter Hset commits Hwf "a.txt"
              "Alvar Penning" ["2020"; "2021"])
    as (owners & E & Hin & U);
    [repeat constructor; reflexivity|discriminate|exact Hy|].
  assert (Hne : commits <> []) by (intros ->; destruct Hc1).
  destruct (history_ownerships utcoffset set_iter Hset commits Hwf "a.txt" Hne)
    as (owners' & E' & ND & Hr & _).
  rewrite E in E'. injection E' as <-. rewrite E. f_equal.
  apply (all_same_singleton owner_author); [assumption..|].
  intros r Hrin. apply U; [assumption|].
  destruct (Hr r Hrin) as (_ & ys & _ & _ & Hys & Hay).
  destruct ys as [|y ys]; [easy|].
  destruct (proj1 (Hay y) (or_introl eq_refl)) as (c & Hc & Hra & _).
  rewrite <- Hra. now apply Y.
Qed.

Lemma alvar_is_alvar_penning_witness :
  file_authors_of_log utc last_first "a.txt" (git_log_output scenario_history)
  = Ok [("a.txt", "Alvar Penning", "2020, 2021")].
Proof.
  apply (alvar_is_alvar_penning utc last_first scenario_history).
  - exact last_first_order.
  - intros c [<-|[<-|[]]]; [left|right]; split; reflexivity.
  - exists ("Alvar", in_2020). split; [simpl; tauto|reflexivity].
  - exists ("Alvar Penning", in_2021). split; [simpl; tauto|reflexivity].
Defined.

(** ** C5: one record per author, years without repetition and increasing *)

Lemma read_years_digits y : all_digits y = true -> read_years y = [y].
Proof.
  induction y as [|c y IH]; [reflexivity|].
  cbn [all_digits]. destruct (Py.digit_val c) as [d|] eqn:E; [|discriminate].
  intros D. cbn [read_years]. destruct y as [|c' y]; [reflexivity|].
  change ","%char with (ascii_of_N 44).
  rewrite (digit_not_char c d 44 E) by lia. cbn [andb].
  now rewrite (IH D).
Qed.

Lemma read_years_cons y t :
  all_digits y = true ->
  read_years (y ++ String "," (String " " t)) = y :: read_years t.
Proof.
  induction y as [|c y IH]; [reflexivity|].
  cbn [all_digits]. destruct (Py.digit_val c) as [d|] eqn:E; [|discriminate].
  intros D. cbn [read_years String.append].
  assert (C : (Ascii.eqb c "," && Ascii.eqb
                 match (y ++ String "," (String " " t))%string with
                 | "" => c | String c' _ => c' end " ") = false).
  { change ","%char with (ascii_of_N 44).
    now rewrite (digit_not_char c d 44 E) by lia. }
  destruct (y ++ String "," (String " " t))%string as [|c' s] eqn:Es.
  - destruct y; discriminate.
  - rewrite C, (IH D). reflexivity.
Qed.

(** Reading back the joined years gives the years. *)
Lemma read_years_concat ys :
  ys <> [] -> Forall (fun y => all_digits y = true) ys ->
  read_years (String.concat ", " ys) = ys.
Proof.
  intros Hne H. induction H as [|y ys Hy Hys IH]; [easy|].
  destruct ys as [|y' ys].
  - now apply read_years_digits.
  - change (String.concat ", " (y :: y' :: ys))
      with (y ++ String "," (String " " (String.concat ", " (y' :: ys))))%string.
    rewrite read_years_cons by assumption.
    now rewrite IH.
Qed.

Lemma owner_year_digits utcoffset tpl e :
  owner_year utcoffset tpl = Ok e -> all_digits (snd e) = true.
Proof.
  unfold owner_year.
  destruct (Py.index tpl 0) as [a|]; [|discriminate].
  destruct (Py.index tpl 1) as [s|]; [|discriminate].
  cbn [bind]. destruct (Py.int s) as [ts|]; [|discriminate].
  cbn [bind]. destruct (Py.fromtimestamp utcoffset ts) as [y|]; [|discriminate].
  cbn [bind]. intros [= <-]. apply str_of_N_spec.
Qed.

Lemma comprehension_In {A B : Type} (f : A -> result B) l : forall ys y,
  comprehension f l = Ok ys -> In y ys -> exists x, In x l /\ f x = Ok y.
Proof.
  induction l as [|x l IH]; intros ys y; simpl.
  - intros [= <-] [].
  - destruct (f x) as [y0|] eqn:E0; [|discriminate]. cbn [bind].
    destruct (comprehension f l) as [ys0|]; [|discriminate]. cbn [bind].
    intros [= <-] [<-|Hin].
    + exists x. auto.
    + destruct (IH ys0 y eq_refl Hin) as (x' & Hx' & E'). exists x'. auto.
Qed.

Lemma parse_log_digits utcoffset out owners_year e :
  parse_log utcoffset out = Ok owners_year -> In e owners_year ->
  all_digits (snd e) = true.
Proof.
  intros P Hin. destruct (comprehension_In _ _ _ _ P Hin) as (tpl & _ & E).
  now apply owner_year_digits in E.
Qed.

(** The years of a returned record, read back from the joined string, are
    strings of digits in strictly increasing order. *)
Lemma record_years_read_back utcoffset set_iter f out owners r :
  set_order set_iter ->
  file_authors_of_log utcoffset set_iter f out = Ok owners ->
  In r owners ->
  StronglySorted str_lt (read_years (owner_years r)) /\
  Forall (fun y => all_digits y = true) (read_years (owner_years r)).
Proof.
  intros Hset E Hr. unfold file_authors_of_log in E.
  destruct (parse_log utcoffset out) as [oy|] eqn:P; [|discriminate].
  cbn [bind] in E. injection E as <-.
  pose proof (group_owners_grouped set_iter oy) as [K S N].
  apply ownerships_In in Hr as (a & ys & Hin & ->).
  apply (In_dict_lookup _ _ _ K) in Hin.
  destruct (S _ _ Hin) as (Hs & Hne & Hy).
  assert (D : Forall (fun y => all_digits y = true) ys).
  { apply Forall_forall. intros y Hyin.
    apply Hy in Hyin as (raw & Hraw & _).
    apply (proj1 (proj2 (Hset oy) _)) in Hraw.
    exact (parse_log_digits _ _ _ _ P Hraw). }
  unfold owner_years. cbn [snd].
  rewrite read_years_concat by assumption. now split.
Qed.

Lemma record_keys_NoDup utcoffset set_iter f out owners :
  file_authors_of_log utcoffset set_iter f out = Ok owners ->
  NoDup (map (fun r => (owner_file r, owner_author r)) owners).
Proof.
  intros E. unfold file_authors_of_log in E.
  destruct (parse_log utcoffset out) as [oy|] eqn:P; [|discriminate].
  cbn [bind] in E. injection E as <-.
  pose proof (group_owners_grouped set_iter oy) as [K _ _].
  set (grp := group_owners set_iter oy) in *.
  unfold ownerships. rewrite map_map.
  change (fun x : string * list string =>
            (owner_file (f, fst x, String.concat ", " (snd x)),
             owner_author (f, fst x, String.concat ", " (snd x))))
    with (fun x : string * list string => (f, fst x)).
  induction grp as [|e grp IH]; simpl in *; constructor.
  - inversion K as [|? ? Hn _]; subst. intros Hin. apply Hn.
    apply in_map_iff in Hin as (e' & [= E'] & Hin').
    apply in_map_iff. now exists e'.
  - inversion K; subst. now apply IH.
Qed.

(** C5.  Whatever git printed, the list [file_authors] returns has at most
    one record per (file, author), and the years of every record, read back
    from the joined string, have no repetition and increase strictly. *)
Theorem one_record_per_author :
  forall utcoffset set_iter f out owners,
    set_order set_iter ->
    file_authors_of_log utcoffset set_iter f out = Ok owners ->
    NoDup (map (fun r => (owner_file r, owner_author r)) owners) /\
    forall r, In r owners ->
      NoDup (read_years (owner_years r)) /\
      StronglySorted str_lt (read_years (owner_years r)).
Proof.
  intros utcoffset set_iter f out owners Hset E.
  split; [exact (record_keys_NoDup _ _ _ _ _ E)|].
  intros r Hr.
  destruct (record_years_read_back _ _ _ _ _ r Hset E Hr) as [S _].
  split; [now apply sorted_NoDup|assumption].
Qed.

Lemma one_record_per_author_witness :
  NoDup (map (fun r => (owner_file r, owner_author r))
             [("main.go", "Alvar Penning", "2019, 2020, 2021");
              ("main.go", "Bob", "2021")]) /\
  forall r, In r [("main.go", "Alvar Penning", "2019, 2020, 2021");
                  ("main.go", "Bob", "2021")] ->
    NoDup (read_years (owner_years r)) /\
    StronglySorted str_lt (read_years (owner_years r)).
Proof.
  apply (one_record_per_author utc first_seen "main.go"
           (git_log_output (alias_history ++ [("Bob", in_2021);
                                              ("Alvar", in_2020)]))).
  - exact first_seen_order.
  - vm_compute. reflexivity.
Defined.

(** ** Splitting on whitespace *)

Lemma head_cons_app c l1 l2 :
  l1 <> [] -> Py.head_cons c (l1 ++ l2) = Py.head_cons c l1 ++ l2.
Proof. now destruct l1. Qed.

Lemma split_starts_word s : Py.starts_word s = true -> Py.split s <> [].
Proof.
  destruct s as [|c s]; [discriminate|]. simpl.
  intros H. apply negb_true_iff in H. rewrite H.
  destruct (Py.starts_word s); [|discriminate].
  now destruct (Py.split s).
Qed.


(** A whitespace character ends a word and starts the next. *)
Lemma split_append a c b :
  Py.isspace c = true ->
  Py.split (a ++ String c b) = Py.split a ++ Py.split b.
Proof.
  intros Hc. induction a as [|x a IH].
  - simpl. now rewrite Hc.
  - cbn [String.append Py.split]. destruct (Py.isspace x); [assumption|].
    destruct a as [|y a].
    + simpl. now rewrite Hc.
    + cbn [String.append Py.starts_word] in *.
      destruct (negb (Py.isspace y)) eqn:Hy.
      * rewrite IH. apply head_cons_app.
        apply split_starts_word. exact Hy.
      * now rewrite IH.
Qed.



Lemma has_space_append a b : has_space (a ++ b) = has_space a || has_space b.
Proof.
  induction a as [|c a IH]; simpl; [reflexivity|].
  now rewrite IH, orb_assoc.
Qed.

(** [split] works line by line on what [git ls-files] prints. *)
Lemma split_ls_files paths :
  Py.split (ls_files_output paths)
  = flat_map (fun p => Py.split (ls_files_line p)) paths.
Proof.
  induction paths as [|p paths IH]; [reflexivity|].
  cbn [ls_files_output fold_right flat_map].
  rewrite split_append by reflexivity. now rewrite <- IH.
Qed.

(** git prints a path as it is when no character of it asks for quotes. *)
Lemma ls_files_line_plain path :
  needs_quoting path = false -> ls_files_line path = path.
Proof. intros H. unfold ls_files_line. now rewrite H. Qed.

Lemma select_files_In listing w :
  In w (select_files listing) <->
  In w (Py.split listing) /\ ~ In w FILE_IGNORE.
Proof.
  unfold select_files. rewrite filter_In, negb_true_iff, contains_not_In.
  tauto.
Qed.


(** ** The commands a run executes *)

Section Runs.

Variable utcoffset : Z -> Z.
Variable set_iter : list (string * string) -> list (string * string).
Variable run_process : trace -> cmd -> Z * string.

Local Abbreviation git' := (git run_process).
Local Abbreviation file_authors' :=
  (file_authors utcoffset set_iter run_process).
Local Abbreviation collect_owners' :=
  (collect_owners utcoffset set_iter run_process).
Local Abbreviation apply_headers' := (apply_headers run_process).
Local Abbreviation resolve' := (resolve utcoffset set_iter run_process).
Local Abbreviation main' := (main utcoffset set_iter run_process).
Local Abbreviation listing := (tracked_listing run_process).

Lemma git_ok cmds tr out :
  run_process tr ("git" :: cmds) = (0%Z, out) ->
  git' cmds tr = (Ok out, tr ++ ["git" :: cmds]).
Proof. intros E. unfold git, subprocess_run. now rewrite E. Qed.

(** Lines 34-35: a non-zero exit status raises, after the one execution. *)
Lemma git_fails cmds tr :
  fst (run_process tr ("git" :: cmds)) <> 0%Z ->
  git' cmds tr = (Raise CalledProcessError, tr ++ ["git" :: cmds]).
Proof.
  intros E. unfold git, subprocess_run.
  destruct (run_process tr ("git" :: cmds)) as [rc out]. simpl in E.
  destruct (Z.eqb_spec rc 0); [contradiction|reflexivity].
Qed.

Lemma git_trace cmds tr : snd (git' cmds tr) = tr ++ ["git" :: cmds].
Proof.
  unfold git, subprocess_run.
  now destruct (run_process tr ("git" :: cmds)).
Qed.

Lemma file_authors_fails f tr :
  fst (run_process tr ("git" :: log_cmd f)) <> 0%Z ->
  file_authors' f tr
  = (Raise CalledProcessError, tr ++ ["git" :: log_cmd f]).
Proof.
  intros E. unfold file_authors, pbind. now rewrite git_fails.
Qed.

Lemma file_authors_trace f tr :
  snd (file_authors' f tr) = tr ++ ["git" :: log_cmd f].
Proof.
  unfold file_authors, pbind, lift.
  pose proof (git_trace (log_cmd f) tr) as T.
  now destruct (git' (log_cmd f) tr) as [[out|e] tr'].
Qed.

Lemma file_authors_of_log_files f out owners :
  file_authors_of_log utcoffset set_iter f out = Ok owners ->
  Forall (fun r => owner_file r = f) owners.
Proof.
  unfold file_authors_of_log.
  destruct (parse_log utcoffset out) as [oy|]; [|discriminate].
  cbn [bind]. intros [= <-]. apply Forall_forall.
  intros r. apply ownerships_files.
Qed.

Lemma file_authors_files f tr owners :
  fst (file_authors' f tr) = Ok owners ->
  Forall (fun r => owner_file r = f) owners.
Proof.
  unfold file_authors, pbind, lift.
  destruct (git' (log_cmd f) tr) as [[out|e] tr']; [|discriminate].
  apply file_authors_of_log_files.
Qed.

Lemma collect_owners_cons f files owners tr :
  collect_owners' (f :: files) owners tr =
  match file_authors' f tr with
  | (Ok found, tr') => collect_owners' files (owners ++ found) tr'
  | (Raise e, tr') => (Raise e, tr')
  end.
Proof. reflexivity. Qed.

Lemma collect_owners_app files1 : forall files2 owners tr,
  collect_owners' (files1 ++ files2) owners tr =
  match collect_owners' files1 owners tr with
  | (Ok owners1, tr1) => collect_owners' files2 owners1 tr1
  | (Raise e, tr1) => (Raise e, tr1)
  end.
Proof.
  induction files1 as [|f files1 IH]; intros files2 owners tr;
    [reflexivity|].
  cbn [app]. rewrite !collect_owners_cons.
  destruct (file_authors' f tr) as [[found|e] tr']; [apply IH|reflexivity].
Qed.

(** Lines 77-79 run [git log] queries for the given files only, and return
    records of the given files only. *)
Lemma collect_owners_spec files : forall owners tr,
  exists logs,
    snd (collect_owners' files owners tr) = tr ++ logs /\
    Forall (is_log_of files) logs /\
    forall owners',
      fst (collect_owners' files owners tr) = Ok owners' ->
      exists found, owners' = owners ++ found /\
                    Forall (fun r => In (owner_file r) files) found.
Proof.
  induction files as [|f files IH]; intros owners tr.
  - exists []. simpl. rewrite app_nil_r. repeat split; [constructor|].
    intros owners' [= <-]. exists []. now rewrite app_nil_r.
  - rewrite collect_owners_cons.
    pose proof (file_authors_trace f tr) as T.
    pose proof (file_authors_files f tr) as F.
    destruct (file_authors' f tr) as [[found|e] tr']; simpl in T, F; subst tr'.
    + destruct (IH (owners ++ found) (tr ++ ["git" :: log_cmd f]))
        as (logs & Htr & Hlogs & Hres).
      exists (("git" :: log_cmd f) :: logs). split; [|split].
      * rewrite Htr, <- app_assoc. reflexivity.
      * constructor; [exists f; simpl; auto|].
        eapply Forall_impl; [|exact Hlogs].
        intros c (f' & Hf' & ->). exists f'. simpl. auto.
      * intros owners' E. destruct (Hres owners' E) as (found' & -> & Hf').
        exists (found ++ found'). split; [now rewrite app_assoc|].
        apply Forall_app. split.
        -- eapply Forall_impl; [|exact (F found eq_refl)].
           intros r ->. now left.
        -- eapply Forall_impl; [|exact Hf']. intros r Hr. now right.
    + exists [("git" :: log_cmd f)]. split; [reflexivity|]. split.
      * repeat constructor. exists f. simpl. auto.
      * discriminate.
Qed.

(** Lines 81-82 run one [reuse addheader] per record, at most. *)
Lemma apply_headers_spec owners : forall tr,
  exists cmds,
    snd (apply_headers' owners tr) = tr ++ cmds /\
    Forall (is_header_of (map owner_file owners)) cmds.
Proof.
  induction owners as [|[[f a] y] owners IH]; intros tr.
  - exists []. simpl. now rewrite app_nil_r.
  - cbn [apply_headers]. unfold pbind at 1.
    unfold reuse_addheader, pbind, subprocess_run, ret.
    destruct (run_process tr (addheader_cmd f a y DEFAULT_LICENSE))
      as [rc out].
    destruct (rc =? 0)%Z.
    + destruct (IH (tr ++ [addheader_cmd f a y DEFAULT_LICENSE]))
        as (cmds & Htr & Hc).
      exists (addheader_cmd f a y DEFAULT_LICENSE :: cmds).
      split; [rewrite Htr, <- app_assoc; reflexivity|].
      constructor; [exists f, a, y; simpl; auto|].
      eapply Forall_impl; [|exact Hc].
      intros c (f' & a' & y' & Hf' & ->). exists f', a', y'. simpl. auto.
    + exists [addheader_cmd f a y DEFAULT_LICENSE]. split; [reflexivity|].
      repeat constructor. exists f, a, y. simpl. auto.
Qed.

Lemma resolve_spec :
  exists logs,
    snd (resolve' []) = ["git"; "ls-files"] :: logs /\
    Forall (is_log_of (select_files listing)) logs /\
    forall owners,
      fst (resolve' []) = Ok owners ->
      Forall (fun r => In (owner_file r) (select_files listing)) owners.
Proof.
  unfold resolve, pbind, git, subprocess_run, tracked_listing.
  destruct (run_process [] ["git"; "ls-files"]) as [rc out]. cbn [snd app].
  destruct (rc =? 0)%Z.
  - destruct (collect_owners_spec (select_files out) [] [["git"; "ls-files"]])
      as (logs & Htr & Hlogs & Hres).
    exists logs. split; [exact Htr|]. split; [exact Hlogs|].
    intros owners E. destruct (Hres owners E) as (found & -> & Hf). exact Hf.
  - exists []. split; [reflexivity|]. split; [constructor|discriminate].
Qed.

(** Every command of a run is the listing of the tracked files, the log of
    a selected file or a header for a selected file. *)
Lemma main_commands c :
  In c (snd (main' [])) ->
  c = ["git"; "ls-files"] \/
  is_log_of (select_files listing) c \/
  is_header_of (select_files listing) c.
Proof.
  destruct resolve_spec as (logs & Htr & Hlogs & Hres).
  unfold main, pbind.
  destruct (resolve' []) as [[owners|e] tr] eqn:R; cbn [fst snd] in *;
    subst tr.
  - destruct (apply_headers_spec owners (["git"; "ls-files"] :: logs))
      as (cmds & -> & Hc).
    intros Hin. apply in_app_iff in Hin as [[<-|Hin]|Hin].
    + now left.
    + right. left. rewrite Forall_forall in Hlogs. now apply Hlogs.
    + right. right. rewrite Forall_forall in Hc.
      destruct (Hc c Hin) as (f & a & y & Hf & ->).
      exists f, a, y. split; [|reflexivity].
      apply in_map_iff in Hf as (r & <- & Hr).
      specialize (Hres owners eq_refl). rewrite Forall_forall in Hres.
      now apply Hres.
  - intros [<-|Hin]; [now left|].
    right. left. rewrite Forall_forall in Hlogs. now apply Hlogs.
Qed.

End Runs.

(** ** C6: excluded files *)

(** C6.  A path of the exclusion list is never selected, whatever git lists
    and whatever history the path has: a run returns no record for it, runs
    no [git log] for it and no [reuse addheader] for it. *)
Theorem excluded_files_yield_nothing :
  forall utcoffset set_iter run_process path,
    In path FILE_IGNORE ->
    (forall listing, ~ In path (select_files listing)) /\
    (forall owners,
       fst (resolve utcoffset set_iter run_process []) = Ok owners ->
       forall r, In r owners -> owner_file r <> path) /\
    ~ In ("git" :: log_cmd path)
         (snd (main utcoffset set_iter run_process [])) /\
    forall author years license,
      ~ In (addheader_cmd path author years license)
           (snd (main utcoffset set_iter run_process [])).
Proof.
  intros utcoffset set_iter run_process path Hp.
  assert (S : forall listing, ~ In path (select_files listing)).
  { intros listing H. apply select_files_In in H as [_ H]. contradiction. }
  split; [exact S|]. split; [|split].
  - intros owners E r Hr <-.
    destruct (resolve_spec utcoffset set_iter run_process)
      as (_ & _ & _ & Hres).
    specialize (Hres owners E). rewrite Forall_forall in Hres.
    exact (S _ (Hres r Hr)).
  - intros Hin. apply main_commands in Hin as [E|[(f & Hf & E)|(f & a & y & Hf & E)]].
    + discriminate E.
    + injection E as <-. exact (S _ Hf).
    + discriminate E.
  - intros author years license Hin.
    apply main_commands in Hin as [E|[(f & Hf & E)|(f & a & y & Hf & E)]].
    + discriminate E.
    + discriminate E.
    + injection E as _ _ _ <-. exact (S _ Hf).
Qed.

Lemma excluded_files_yield_nothing_witness :
  In "go.mod" FILE_IGNORE /\
  snd (main utc first_seen example_repo [])
  = [["git"; "ls-files"];
     ["git"; "log"; "--pretty=format:%an%x00%at"; "main.go"];
     ["reuse"; "addheader"; "--copyright=Alvar Penning";
      "--year=2020, 2021"; "--license=GPL-3.0-or-later"; "main.go"]] /\
  (forall listing, ~ In "go.mod" (select_files listing)) /\
  (forall owners,
     fst (resolve utc first_seen example_repo []) = Ok owners ->
     forall r, In r owners -> owner_file r <> "go.mod") /\
  ~ In ("git" :: log_cmd "go.mod") (snd (main utc first_seen example_repo [])) /\
  forall author years license,
    ~ In (addheader_cmd "go.mod" author years license)
         (snd (main utc first_seen example_repo [])).
Proof.
  split; [simpl; tauto|]. split; [vm_compute; reflexivity|].
  apply (excluded_files_yield_nothing utc first_seen example_repo "go.mod").
  simpl. tauto.
Defined.

(** ** C7: a failing [git log] *)

(** C7.  When [git log] exits with a non-zero status for a file,
    [file_authors] raises CalledProcessError after that one execution, and
    the run stops there: the failed command is the last command of the run,
    the run ends with the exception, and only git commands have been run,
    so that no header was applied. *)
Theorem failed_log_aborts :
  forall utcoffset set_iter run_process listing before f after owners tr,
    run_process [] ["git"; "ls-files"] = (0%Z, listing) ->
    select_files listing = before ++ f :: after ->
    collect_owners utcoffset set_iter run_process before []
                   [["git"; "ls-files"]] = (Ok owners, tr) ->
    fst (run_process tr ("git" :: log_cmd f)) <> 0%Z ->
    file_authors utcoffset set_iter run_process f tr
    = (Raise CalledProcessError, tr ++ ["git" :: log_cmd f]) /\
    main utcoffset set_iter run_process []
    = (Raise CalledProcessError, tr ++ ["git" :: log_cmd f]) /\
    Forall (fun c => program c = "git") (tr ++ ["git" :: log_cmd f]).
Proof.
  intros utcoffset set_iter run_process listing before f after owners tr
         Hls Hsel Hbefore Hfail.
  pose proof (file_authors_fails utcoffset set_iter run_process f tr Hfail)
    as F.
  split; [exact F|]. split.
  - unfold main, resolve, pbind.
    rewrite (git_ok run_process ["ls-files"] [] listing Hls). cbn [app].
    rewrite Hsel, collect_owners_app, Hbefore, collect_owners_cons, F.
    reflexivity.
  - destruct (collect_owners_spec utcoffset set_iter run_process before []
                [["git"; "ls-files"]]) as (logs & Htr & Hlogs & _).
    rewrite Hbefore in Htr. cbn [snd] in Htr. subst tr.
    apply Forall_app. split; [constructor; [reflexivity|]|].
    + eapply Forall_impl; [|exact Hlogs]. now intros c (f' & _ & ->).
    + repeat constructor.
Qed.

Lemma failed_log_aborts_witness :
  main utc first_seen broken_repo []
  = (Raise CalledProcessError,
     [["git"; "ls-files"];
      ["git"; "log"; "--pretty=format:%an%x00%at"; "a.txt"];
      ["git"; "log"; "--pretty=format:%an%x00%at"; "b.txt"]]).
Proof.
  apply (failed_log_aborts utc first_seen broken_repo
           (ls_files_output ["a.txt"; "b.txt"]) ["a.txt"] "b.txt" []
           [("a.txt", "Alvar Penning", "2020, 2021")]
           [["git"; "ls-files"];
            ["git"; "log"; "--pretty=format:%an%x00%at"; "a.txt"]]).
  - reflexivity.
  - reflexivity.
  - vm_compute. reflexivity.
  - discriminate.
Defined.

(** ** C8: the Identity Normalizer *)

(** C8.  Rewriting an author name twice is rewriting it once; the values of
    the rewrite table and the names that are not among its keys are left as
    they are. *)
Theorem rewrite_author_idempotent :
  (forall a, rewrite_author (rewrite_author a) = rewrite_author a) /\
  (forall k v, In (k, v) AUTHOR_REWRITE -> rewrite_author v = v) /\
  (forall a, Py.dict_lookup AUTHOR_REWRITE a = None -> rewrite_author a = a).
Proof.
  split; [|split].
  - intros a. unfold rewrite_author, Py.dict_get. simpl.
    destruct (String.eqb_spec a "Alvar") as [->|N]; [reflexivity|].
    simpl. now destruct (String.eqb_spec a "Alvar").
  - intros k v [[= <- <-]|[]]. reflexivity.
  - intros a H. unfold rewrite_author, Py.dict_get. now rewrite H.
Qed.

Lemma rewrite_author_idempotent_witness :
  rewrite_author (rewrite_author "Alvar") = rewrite_author "Alvar" /\
  rewrite_author "Alvar Penning" = "Alvar Penning" /\
  rewrite_author "Ada" = "Ada".
Proof.
  destruct rewrite_author_idempotent as (H1 & H2 & H3).
  split; [apply H1|split].
  - apply (H2 "Alvar"). left. reflexivity.
  - apply H3. reflexivity.
Defined.

(** ** C9: tracked paths with whitespace *)



(** A path with a tab is not broken in two: git prints it between double
    quotes with the tab written as a backslash and a letter, and the
    listing gives that one fragment for it. *)
Lemma tab_path_gives_one_fragment :
  Py.isspace (ascii_of_N 9) = true /\
  Py.split (ls_files_output [String "a" (String (ascii_of_N 9) "b")])
  = [String (ascii_of_N 34)
       (String "a" (String (ascii_of_N 92)
          (String "t" (String "b" (String (ascii_of_N 34) "")))))].
Proof. split; reflexivity. Qed.


(** ** C10: the order of the years is the order of strings *)

Lemma dec_value_mono s : forall t a a',
  all_digits s = true -> all_digits t = true ->
  String.length s = String.length t ->
  (a < a')%N -> (dec_value a s < dec_value a' t)%N.
Proof.
  induction s as [|c s IH]; intros [|c' t] a a' Ds Dt L Ha;
    try discriminate L; [exact Ha|].
  cbn [all_digits dec_value] in *.
  destruct (Py.digit_val c) as [d|] eqn:E; [|discriminate].
  destruct (Py.digit_val c') as [d'|] eqn:E'; [|discriminate].
  apply digit_val_range in E as [_ Hd], E' as [_ Hd'].
  apply IH; try assumption; [now injection L|lia].
Qed.

(** On strings of digits of one length, the order of strings is the order
    of numbers. *)
Lemma compare_digits s : forall t a,
  all_digits s = true -> all_digits t = true ->
  String.length s = String.length t ->
  String.compare s t = Lt <-> (dec_value a s < dec_value a t)%N.
Proof.
  induction s as [|c s IH]; intros [|c' t] a Ds Dt L; try discriminate L.
  - simpl. split; [discriminate|lia].
  - cbn [all_digits dec_value String.compare] in *.
    destruct (Py.digit_val c) as [d|] eqn:E; [|discriminate].
    destruct (Py.digit_val c') as [d'|] eqn:E'; [|discriminate].
    injection L as L.
    destruct (digit_val_range _ _ E) as [Ec Hd].
    destruct (digit_val_range _ _ E') as [Ec' Hd'].
    unfold Ascii.compare. rewrite Ec, Ec'.
    destruct (N.compare_spec (48 + d) (48 + d')) as [Q|Q|Q].
    + assert (d = d') as -> by lia. now apply IH.
    + split; [intros _|reflexivity].
      apply dec_value_mono; try assumption. lia.
    + split; [discriminate|]. intros H. exfalso.
      assert (dec_value (10 * a + d') t < dec_value (10 * a + d) s)%N.
      { apply dec_value_mono; auto. lia. }
      lia.
Qed.

Lemma str_lt_compare s t : str_lt s t <-> String.compare s t = Lt.
Proof.
  unfold str_lt, String.ltb.
  destruct (String.compare s t); split; congruence.
Qed.

Lemma num_lt_digits s t :
  all_digits s = true -> all_digits t = true -> s <> "" -> t <> "" ->
  num_lt s t <-> (dec_value 0 s < dec_value 0 t)%N.
Proof.
  intros Ds Dt Ns Nt. unfold num_lt.
  rewrite !int_all_digits by assumption. lia.
Qed.

Lemma same_length_order s t :
  all_digits s = true -> all_digits t = true ->
  String.length s = String.length t ->
  str_lt s t <-> num_lt s t.
Proof.
  intros Ds Dt L. destruct s as [|c s], t as [|c' t]; try discriminate L.
  - unfold num_lt. simpl. split; [discriminate|tauto].
  - rewrite str_lt_compare, num_lt_digits by easy.
    now apply compare_digits.
Qed.

Lemma StronglySorted_In_impl {A : Type} (P Q : A -> A -> Prop) l :
  (forall x y, In x l -> In y l -> P x y -> Q x y) ->
  StronglySorted P l -> StronglySorted Q l.
Proof.
  intros H S. induction S as [|a l S IH Ha]; constructor.
  - apply IH. intros x y Hx Hy. apply H; now right.
  - rewrite Forall_forall in *. intros y Hy.
    apply H; [now left|now right|now apply Ha].
Qed.

Lemma digits_fuel_small fuel n acc :
  (n < 10)%N ->
  Py.digits_fuel fuel n acc = String (Py.digit_char (n mod 10)) acc.
Proof.
  intros H. destruct fuel; [reflexivity|]. cbn [Py.digits_fuel].
  now destruct (N.ltb_spec n 10); [|lia].
Qed.

Lemma digits_fuel_large fuel n acc :
  (10 <= n)%N ->
  Py.digits_fuel (S fuel) n acc
  = Py.digits_fuel fuel (n / 10) (String (Py.digit_char (n mod 10)) acc).
Proof.
  intros H. cbn [Py.digits_fuel].
  now destruct (N.ltb_spec n 10); [lia|].
Qed.

(** The years 1000 to 9999 print with four digits. *)
Lemma strftime_Y_four_digits year :
  (1000 <= year <= 9999)%Z -> String.length (Py.strftime_Y year) = 4.
Proof.
  intros H. unfold Py.strftime_Y, Py.str_of_N.
  set (n := Z.to_N year). assert (Hn : (1000 <= n <= 9999)%N) by lia.
  assert (F : (9 <= N.log2 n)%N).
  { change 9%N with (N.log2 512). apply N.log2_le_mono. lia. }
  destruct (N.to_nat (N.log2 n)) as [|[|[|fuel]]] eqn:E; try lia.
  assert (n / 10 < 1000 /\ 100 <= n / 10)%N as [A1 A2].
  { split; [apply N.Div0.div_lt_upper_bound; lia|
            apply N.div_le_lower_bound; lia]. }
  assert (n / 10 / 10 < 100 /\ 10 <= n / 10 / 10)%N as [B1 B2].
  { split; [apply N.Div0.div_lt_upper_bound; lia|
            apply N.div_le_lower_bound; lia]. }
  assert (n / 10 / 10 / 10 < 10)%N as C1
    by (apply N.Div0.div_lt_upper_bound; lia).
  rewrite !digits_fuel_large by lia.
  now rewrite digits_fuel_small.
Qed.

(** The loop on two years of different lengths, under any iteration
    order. *)
Lemma mixed_lengths_grouped set_iter f :
  set_order set_iter ->
  ownerships f (group_owners set_iter [("Ada", "999"); ("Ada", "1000")])
  = [(f, "Ada", "1000, 999")].
Proof.
  intros Hset.
  destruct (Hset [("Ada", "999"); ("Ada", "1000")]) as [ND Hin].
  assert (P : Permutation [("Ada", "999"); ("Ada", "1000")]
                          (set_iter [("Ada", "999"); ("Ada", "1000")])).
  { apply NoDup_Permutation; [|exact ND|intros x; symmetry; apply Hin].
    repeat constructor; simpl; intuition discriminate. }
  unfold group_owners.
  destruct (Permutation_length_2_inv P) as [-> | ->]; reflexivity.
Qed.

(** C10.  The years of a record are in the order of strings.  On strings
    of digits of one length that order is the order of numbers, so a
    record whose years all have the same number of digits, as the years
    1000 to 9999 have, lists them in ascending numeric order.  With years
    of different lengths the order can differ from the numeric one: from
    the years 999 and 1000 the loop makes "1000, 999". *)
Theorem years_are_sorted_as_strings :
  (forall utcoffset set_iter f out owners r,
     set_order set_iter ->
     file_authors_of_log utcoffset set_iter f out = Ok owners ->
     In r owners ->
     StronglySorted str_lt (read_years (owner_years r)) /\
     ((forall y y', In y (read_years (owner_years r)) ->
                    In y' (read_years (owner_years r)) ->
                    String.length y = String.length y') ->
      StronglySorted num_lt (read_years (owner_years r)))) /\
  (forall s t,
     all_digits s = true -> all_digits t = true ->
     String.length s = String.length t ->
     str_lt s t <-> num_lt s t) /\
  (forall year,
     (1000 <= year <= 9999)%Z -> String.length (Py.strftime_Y year) = 4) /\
  (forall set_iter f,
     set_order set_iter ->
     ownerships f (group_owners set_iter [("Ada", "999"); ("Ada", "1000")])
     = [(f, "Ada", "1000, 999")]) /\
  num_lt "999" "1000".
Proof.
  split; [|split; [|split; [|split]]].
  - intros utcoffset set_iter f out owners r Hset E Hr.
    destruct (record_years_read_back _ _ _ _ _ r Hset E Hr) as [S D].
    split; [exact S|]. intros L.
    apply (StronglySorted_In_impl str_lt); [|exact S].
    rewrite Forall_forall in D.
    intros x y Hx Hy. apply same_length_order; auto.
  - exact same_length_order.
  - exact strftime_Y_four_digits.
  - intros set_iter f Hset. now apply mixed_lengths_grouped.
  - vm_compute. reflexivity.
Qed.

Lemma years_are_sorted_as_strings_witness :
  StronglySorted str_lt
    (read_years (owner_years ("main.go", "Alvar Penning",
                              "2019, 2020, 2021"))) /\
  StronglySorted num_lt
    (read_years (owner_years ("main.go", "Alvar Penning",
                              "2019, 2020, 2021"))) /\
  (str_lt "2019" "2020" <-> num_lt "2019" "2020") /\
  String.length (Py.strftime_Y 2020) = 4 /\
  ownerships "main.go"
    (group_owners last_first [("Ada", "999"); ("Ada", "1000")])
  = [("main.go", "Ada", "1000, 999")].
Proof.
  destruct years_are_sorted_as_strings as (H1 & H2 & H3 & H4 & _).
  destruct (H1 utc first_seen "main.go" (git_log_output alias_history)
               [("main.go", "Alvar Penning", "2019, 2020, 2021")]
               ("main.go", "Alvar Penning", "2019, 2020, 2021")
               first_seen_order) as [S N].
  - vm_compute. reflexivity.
  - left. reflexivity.
  - split; [exact S|]. split.
    + apply N. intros y y' [<-|[<-|[<-|[]]]] [<-|[<-|[<-|[]]]]; reflexivity.
    + split; [apply H2; reflexivity|]. split; [apply H3; lia|].
      apply H4. exact last_first_order.
Defined.

(** * Further properties of the script *)

(** ** The records of a history *)

(** X1.  For a well-formed, non-empty history, [file_authors] returns, and
    what it returns is determined up to order: one record per canonical
    author that has a commit, each for the requested file, each with the
    distinct years of that author's commits in strictly increasing order,
    joined by ", ". *)
Theorem file_authors_of_history :
  forall utcoffset set_iter f commits,
    set_order set_iter ->
    commits <> [] ->
    Forall (well_formed utcoffset) commits ->
    exists owners,
      file_authors_of_log utcoffset set_iter f (git_log_output commits)
      = Ok owners /\
      NoDup (map owner_author owners) /\
      (forall r, In r owners ->
         owner_file r = f /\
         exists ys, owner_years r = String.concat ", " ys /\
                    StronglySorted str_lt ys /\ ys <> [] /\
                    author_years utcoffset commits (owner_author r) ys) /\
      (forall c, In c commits ->
         exists r, In r owners /\ owner_author r = rewrite_author (fst c)).
Proof.
  intros utcoffset set_iter f commits Hset Hne Hwf.
  now apply history_ownerships.
Qed.

Lemma file_authors_of_history_witness :
  exists owners,
    file_authors_of_log utc first_seen "main.go"
                        (git_log_output alias_history) = Ok owners /\
    NoDup (map owner_author owners) /\
    (forall r, In r owners ->
       owner_file r = "main.go" /\
       exists ys, owner_years r = String.concat ", " ys /\
                  StronglySorted str_lt ys /\ ys <> [] /\
                  author_years utc alias_history (owner_author r) ys) /\
    (forall c, In c alias_history ->
       exists r, In r owners /\ owner_author r = rewrite_author (fst c)).
Proof.
  apply (file_authors_of_history utc first_seen "main.go" alias_history).
  - exact first_seen_order.
  - discriminate.
  - exact alias_history_well_formed.
Defined.

Lemma NoDup_map_NoDup {A B : Type} (g : A -> B) (l : list A) :
  NoDup (map g l) -> NoDup l.
Proof.
  induction l as [|x l IH]; simpl; intros H; constructor;
    inversion H as [|? ? Hn Hl]; subst.
  - intros Hin. apply Hn. now apply in_map.
  - now apply IH.
Qed.

Lemma author_years_unique utcoffset commits a ys ys' :
  author_years utcoffset commits a ys ->
  author_years utcoffset commits a ys' ->
  StronglySorted str_lt ys -> StronglySorted str_lt ys' -> ys = ys'.
Proof.
  intros H H' S S'. apply sorted_same_elements; try assumption.
  intros y. now rewrite (H y), (H' y).
Qed.

(** The records of one history under one iteration order are among those of
    a reordered history under another. *)
Lemma records_included utcoffset f commits commits' owners owners' :
  Permutation commits commits' ->
  (forall r, In r owners ->
     owner_file r = f /\
     exists ys, owner_years r = String.concat ", " ys /\
                StronglySorted str_lt ys /\ ys <> [] /\
                author_years utcoffset commits (owner_author r) ys) ->
  (forall r, In r owners' ->
     owner_file r = f /\
     exists ys, owner_years r = String.concat ", " ys /\
                StronglySorted str_lt ys /\ ys <> [] /\
                author_years utcoffset commits' (owner_author r) ys) ->
  (forall c, In c commits' ->
     exists r, In r owners' /\ owner_author r = rewrite_author (fst c)) ->
  forall r, In r owners -> In r owners'.
Proof.
  intros P H H' C [[f1 a] ystr] Hr.
  destruct (H _ Hr) as (Hf & ys & Ey & Sy & Ny & Ay).
  unfold owner_file, owner_author, owner_years in Hf, Ey, Ay.
  simpl in Hf, Ey, Ay. subst f1 ystr.
  destruct ys as [|y ys]; [easy|].
  destruct (proj1 (Ay y) (or_introl eq_refl)) as (c & Hc & Hca & _).
  destruct (C c (Permutation_in _ P Hc)) as ([[f2 a2] ystr2] & Hr2 & Ha2).
  destruct (H' _ Hr2) as (Hf2 & ys2 & Ey2 & Sy2 & _ & Ay2).
  unfold owner_file, owner_author, owner_years in Ha2, Hf2, Ey2, Ay2.
  simpl in Ha2, Hf2, Ey2, Ay2. subst f2 ystr2. rewrite Hca in Ha2. subst a2.
  apply (author_years_Permutation _ _ _ _ _ P) in Ay.
  now rewrite (author_years_unique _ _ _ _ _ Ay Ay2 Sy Sy2).
Qed.

(** X2.  The records of a file do not depend on the iteration order of the
    set nor on the order of the commits, but for their own order: two runs
    of [file_authors] on reorderings of a well-formed history, under any two
    iteration orders, return permutations of one list. *)
Theorem records_do_not_depend_on_order :
  forall utcoffset f visit visit' commits commits',
    set_order visit -> set_order visit' ->
    commits <> [] ->
    Forall (well_formed utcoffset) commits ->
    Permutation commits commits' ->
    exists owners owners',
      file_authors_of_log utcoffset visit f (git_log_output commits)
      = Ok owners /\
      file_authors_of_log utcoffset visit' f (git_log_output commits')
      = Ok owners' /\
      Permutation owners owners'.
Proof.
  intros utcoffset f visit visit' commits commits' V V' Hne Hwf P.
  assert (Hne' : commits' <> []).
  { intros ->. apply Permutation_sym, Permutation_nil in P. contradiction. }
  pose proof (well_formed_Permutation _ _ _ P Hwf) as Hwf'.
  destruct (history_ownerships utcoffset visit V commits Hwf f Hne)
    as (owners & E & ND & R & C).
  destruct (history_ownerships utcoffset visit' V' commits' Hwf' f Hne')
    as (owners' & E' & ND' & R' & C').
  exists owners, owners'. split; [exact E|]. split; [exact E'|].
  apply NoDup_Permutation.
  - exact (NoDup_map_NoDup _ _ ND).
  - exact (NoDup_map_NoDup _ _ ND').
  - intros r. split.
    + now apply (records_included utcoffset f commits commits').
    + apply (records_included utcoffset f commits' commits); try assumption.
      now symmetry.
Qed.

Lemma records_do_not_depend_on_order_witness :
  exists owners owners',
    file_authors_of_log utc first_seen "main.go"
      (git_log_output (alias_history ++ two_author_history)) = Ok owners /\
    file_authors_of_log utc last_first "main.go"
      (git_log_output (rev (alias_history ++ two_author_history)))
    = Ok owners' /\
    Permutation owners owners'.
Proof.
  apply (records_do_not_depend_on_order utc "main.go" first_seen last_first).
  - exact first_seen_order.
  - exact last_first_order.
  - discriminate.
  - repeat constructor; try reflexivity; eexists; vm_compute; reflexivity.
  - apply Permutation_rev.
Defined.

(** ** The order of the records *)

Lemma filter_filter {A : Type} (p q : A -> bool) (l : list A) :
  filter p (filter q l) = filter (fun x => q x && p x) l.
Proof.
  induction l as [|x l IH]; simpl; [reflexivity|].
  destruct (q x); simpl; [|assumption]. destruct (p x); now rewrite IH.
Qed.

(** The keys of the dictionary after one more entry. *)
Lemma group_step_keys grp raw year :
  map fst (group_step grp (raw, year)) =
  if Py.contains (map fst grp) (rewrite_author raw) then map fst grp
  else map fst grp ++ [rewrite_author raw].
Proof.
  unfold group_step.
  destruct (Py.dict_lookup grp (rewrite_author raw)) as [years|] eqn:E.
  - assert (C : Py.contains (map fst grp) (rewrite_author raw) = true).
    { apply contains_In. apply dict_lookup_In in E.
      apply in_map_iff. now exists (rewrite_author raw, years). }
    rewrite C. destruct (Py.contains years year); [reflexivity|].
    now rewrite (dict_set_old_keys _ _ _ _ E).
  - assert (C : Py.contains (map fst grp) (rewrite_author raw) = false).
    { apply contains_not_In. now apply dict_lookup_None. }
    rewrite C, (dict_set_new _ _ _ E), map_app. reflexivity.
Qed.

Lemma fold_group_keys l : forall grp,
  map fst (fold_left group_step l grp) =
  map fst grp ++
  filter (fun a => negb (Py.contains (map fst grp) a))
         (first_visits (map (fun e => rewrite_author (fst e)) l)).
Proof.
  induction l as [|[raw year] l IH]; intros grp.
  - simpl. now rewrite app_nil_r.
  - cbn [fold_left map first_visits fst filter].
    rewrite IH, group_step_keys.
    set (a := rewrite_author raw).
    set (rest := first_visits (map (fun e => rewrite_author (fst e)) l)).
    destruct (Py.contains (map fst grp) a) eqn:C; cbn [negb].
    + f_equal. rewrite filter_filter. apply filter_ext_in. intros b _.
      destruct (String.eqb_spec a b) as [<-|]; [|reflexivity].
      now rewrite C.
    + rewrite <- app_assoc. cbn [app]. do 2 f_equal.
      rewrite filter_filter. apply filter_ext_in. intros b _.
      unfold Py.contains. rewrite existsb_app. cbn [existsb].
      rewrite orb_false_r, negb_orb, (String.eqb_sym b a).
      apply andb_comm.
Qed.

Lemma filter_all {A : Type} (l : list A) : filter (fun _ => true) l = l.
Proof. induction l as [|x l IH]; simpl; [reflexivity|now rewrite IH]. Qed.

(** X3.  The records come in the order in which the loop first meets their
    authors: the authors of the returned list are the canonical names of
    the visited entries, each once, in the order of first occurrence. *)
Theorem records_in_first_visit_order :
  forall utcoffset set_iter f out owners_year,
    parse_log utcoffset out = Ok owners_year ->
    exists owners,
      file_authors_of_log utcoffset set_iter f out = Ok owners /\
      map owner_author owners =
      first_visits (map (fun e => rewrite_author (fst e))
                        (set_iter owners_year)).
Proof.
  intros utcoffset set_iter f out oy P.
  exists (ownerships f (group_owners set_iter oy)).
  split; [now apply file_authors_of_log_eq|].
  rewrite ownerships_authors. unfold group_owners.
  rewrite fold_group_keys. cbn [map app Py.contains existsb negb].
  apply filter_all.
Qed.

Lemma records_in_first_visit_order_witness :
  exists owners,
    file_authors_of_log utc last_first "main.go"
                        (git_log_output two_author_history) = Ok owners /\
    map owner_author owners = ["Bob"; "Ada"].
Proof.
  apply (records_in_first_visit_order utc last_first "main.go"
           (git_log_output two_author_history)
           (map (commit_entry utc) two_author_history)).
  reflexivity.
Defined.

(** ** The authors of the records *)

Lemma rewrite_author_not_a_key raw :
  Py.dict_lookup AUTHOR_REWRITE (rewrite_author raw) = None.
Proof.
  unfold rewrite_author, Py.dict_get. simpl.
  destruct (String.eqb_spec raw "Alvar") as [->|N]; [reflexivity|].
  simpl. now destruct (String.eqb_spec raw "Alvar").
Qed.

(** X4.  No record carries an alias: the author of every returned record
    is not a key of the rewrite table, so that rewriting it changes
    nothing. *)
Theorem authors_are_canonical :
  forall utcoffset set_iter f out owners r,
    file_authors_of_log utcoffset set_iter f out = Ok owners ->
    In r owners ->
    Py.dict_lookup AUTHOR_REWRITE (owner_author r) = None /\
    rewrite_author (owner_author r) = owner_author r.
Proof.
  intros utcoffset set_iter f out owners r E Hr.
  unfold file_authors_of_log in E.
  destruct (parse_log utcoffset out) as [oy|]; [|discriminate].
  cbn [bind] in E. injection E as <-.
  pose proof (group_owners_grouped set_iter oy) as [K S _].
  apply ownerships_In in Hr as (a & ys & Hin & ->).
  apply (In_dict_lookup _ _ _ K) in Hin.
  destruct (S _ _ Hin) as (_ & Hne & Hy).
  destruct ys as [|y ys]; [easy|].
  destruct (proj1 (Hy y) (or_introl eq_refl)) as (raw & _ & <-).
  unfold owner_author. cbn [fst snd].
  pose proof (rewrite_author_not_a_key raw) as L.
  split; [exact L|]. unfold rewrite_author at 1, Py.dict_get. now rewrite L.
Qed.

Lemma authors_are_canonical_witness :
  Py.dict_lookup AUTHOR_REWRITE "Alvar Penning" = None /\
  rewrite_author "Alvar Penning" = "Alvar Penning".
Proof.
  apply (authors_are_canonical utc first_seen "a.txt"
           (git_log_output scenario_history)
           [("a.txt", "Alvar Penning", "2020, 2021")]
           ("a.txt", "Alvar Penning", "2020, 2021")).
  - vm_compute. reflexivity.
  - left. reflexivity.
Defined.

(** ** Malformed logs *)

Lemma split_on_nonempty sep s : Py.split_on sep s <> [].
Proof.
  destruct s as [|c s]; simpl; [discriminate|].
  destruct (Ascii.eqb c sep); [discriminate|].
  now destruct (Py.split_on sep s).
Qed.

(** [split_on] works separator by separator. *)
Lemma split_on_app sep a b :
  Py.split_on sep (a ++ String sep b) = Py.split_on sep a ++ Py.split_on sep b.
Proof.
  induction a as [|c a IH]; simpl.
  - now rewrite Ascii.eqb_refl.
  - destruct (Ascii.eqb c sep); rewrite IH; [reflexivity|].
    apply head_cons_app, split_on_nonempty.
Qed.

Lemma comprehension_Ok {A B : Type} (f : A -> result B) l :
  (exists ys, comprehension f l = Ok ys) <->
  Forall (fun x => exists y, f x = Ok y) l.
Proof.
  induction l as [|x l IH]; simpl.
  - split; [constructor|]. intros _. now exists [].
  - split.
    + intros (ys & E). destruct (f x) as [y|] eqn:Ex; [|discriminate].
      cbn [bind] in E.
      destruct (comprehension f l) as [ys'|]; [|discriminate].
      constructor; [now exists y|]. apply IH. now exists ys'.
    + intros H. inversion H as [|? ? (y & Ey) Hl]; subst.
      apply IH in Hl as (ys & E). rewrite Ey, E. now exists (y :: ys).
Qed.

Lemma owner_year_Ok utcoffset tpl :
  (exists entry, owner_year utcoffset tpl = Ok entry) <->
  exists author stamp rest ts year,
    tpl = author :: stamp :: rest /\
    Py.int stamp = Ok ts /\
    Py.fromtimestamp utcoffset ts = Ok year.
Proof.
  unfold owner_year, Py.index. split.
  - intros (entry & E).
    destruct tpl as [|author [|stamp rest]]; try discriminate E.
    cbn [nth_error bind] in E.
    destruct (Py.int stamp) as [ts|] eqn:I; [|discriminate].
    cbn [bind] in E.
    destruct (Py.fromtimestamp utcoffset ts) as [year|] eqn:F;
      [|discriminate].
    now exists author, stamp, rest, ts, year.
  - intros (author & stamp & rest & ts & year & -> & I & F).
    cbn [nth_error bind]. rewrite I. cbn [bind]. rewrite F. cbn [bind].
    eauto.
Qed.

(** X5.  [file_authors] returns exactly when every line of the log has two
    NUL-separated fields at least, a second field that [int] accepts and a
    timestamp that [datetime.fromtimestamp] can hold; one line that does
    not makes the call raise: no line is skipped. *)
Theorem returns_iff_every_line_parses :
  forall utcoffset set_iter f out,
    (exists owners, file_authors_of_log utcoffset set_iter f out = Ok owners)
    <-> Forall (line_parses utcoffset) (Py.split_on LF out).
Proof.
  intros utcoffset set_iter f out.
  assert (P : (exists oy, parse_log utcoffset out = Ok oy) <->
              Forall (line_parses utcoffset) (Py.split_on LF out)).
  { unfold parse_log. rewrite comprehension_Ok.
    rewrite <- map_rev, Forall_map. split; intros H.
    - apply Forall_rev in H. rewrite rev_involutive in H.
      eapply Forall_impl; [|exact H]. intros line.
      apply owner_year_Ok.
    - apply Forall_rev. eapply Forall_impl; [|exact H]. intros line.
      apply owner_year_Ok. }
  rewrite <- P. unfold file_authors_of_log. split.
  - intros (owners & E).
    destruct (parse_log utcoffset out) as [oy|]; [now exists oy|discriminate].
  - intros (oy & ->). cbn [bind]. eauto.
Qed.

Lemma returns_iff_every_line_parses_witness :
  (exists owners,
     file_authors_of_log utc first_seen "a.txt"
                         (git_log_output scenario_history) = Ok owners) /\
  ~ Forall (line_parses utc) (Py.split_on LF "Alvar").
Proof.
  split.
  - apply (returns_iff_every_line_parses utc first_seen "a.txt").
    repeat constructor.
    + exists "Alvar Penning", "1620000000", [], 1620000000%Z, 2021%Z.
      repeat split.
    + exists "Alvar", "1590000000", [], 1590000000%Z, 2020%Z.
      repeat split.
  - intros H.
    apply (returns_iff_every_line_parses utc first_seen "a.txt") in H
      as (owners & E).
    discriminate E.
Defined.

(** X6.  A log whose last line has no NUL makes [file_authors] raise
    IndexError, whatever comes before: the last line is the first that
    line 46 reads.  A log that ends with a line feed is such a log. *)
Theorem log_ending_without_nul_raises :
  forall utcoffset set_iter f out line,
    mentions LF line = false -> mentions NUL line = false ->
    file_authors_of_log utcoffset set_iter f line = Raise IndexError /\
    file_authors_of_log utcoffset set_iter f (out ++ String LF line)
    = Raise IndexError.
Proof.
  intros utcoffset set_iter f out line HLF HNUL.
  assert (E : owner_year utcoffset (Py.split_on NUL line) = Raise IndexError).
  { now rewrite split_on_plain. }
  unfold file_authors_of_log, parse_log. split.
  - rewrite (split_on_plain LF line HLF). simpl. now rewrite E.
  - rewrite split_on_app, (split_on_plain LF line HLF), map_app, rev_app_distr.
    simpl. now rewrite E.
Qed.

Lemma log_ending_without_nul_raises_witness :
  file_authors_of_log utc first_seen "a.txt"
    (git_log_output scenario_history ++ String LF "") = Raise IndexError.
Proof.
  apply (log_ending_without_nul_raises utc first_seen "a.txt"
           (git_log_output scenario_history) "");
    reflexivity.
Defined.

(** ** The course of a run *)

Section Course.

Variable utcoffset : Z -> Z.
Variable set_iter : list (string * string) -> list (string * string).
Variable run_process : trace -> cmd -> Z * string.

Local Abbreviation file_authors' :=
  (file_authors utcoffset set_iter run_process).
Local Abbreviation collect_owners' :=
  (collect_owners utcoffset set_iter run_process).
Local Abbreviation apply_headers' := (apply_headers run_process).
Local Abbreviation resolve' := (resolve utcoffset set_iter run_process).
Local Abbreviation main' := (main utcoffset set_iter run_process).
Local Abbreviation files := (select_files (tracked_listing run_process)).

Lemma apply_headers_cons r owners tr :
  apply_headers' (r :: owners) tr =
  if (fst (run_process tr (header_of r)) =? 0)%Z
  then apply_headers' owners (tr ++ [header_of r])
  else (Raise CalledProcessError, tr ++ [header_of r]).
Proof.
  destruct r as [[f a] y]. cbn [apply_headers].
  unfold pbind at 1. unfold reuse_addheader, pbind, subprocess_run, ret.
  change (addheader_cmd f a y DEFAULT_LICENSE) with (header_of (f, a, y)).
  destruct (run_process tr (header_of (f, a, y))) as [rc out]. cbn [fst].
  now destruct (rc =? 0)%Z.
Qed.

Lemma apply_headers_app owners1 : forall owners2 tr,
  apply_headers' (owners1 ++ owners2) tr =
  match apply_headers' owners1 tr with
  | (Ok _, tr1) => apply_headers' owners2 tr1
  | (Raise e, tr1) => (Raise e, tr1)
  end.
Proof.
  induction owners1 as [|r owners1 IH]; intros owners2 tr; [reflexivity|].
  cbn [app]. rewrite !apply_headers_cons.
  destruct (fst (run_process tr (header_of r)) =? 0)%Z;
    [apply IH|reflexivity].
Qed.

Lemma apply_headers_all owners : forall tr,
  (forall tr' r, In r owners -> fst (run_process tr' (header_of r)) = 0%Z) ->
  apply_headers' owners tr = (Ok tt, tr ++ map header_of owners).
Proof.
  induction owners as [|r owners IH]; intros tr H.
  - simpl. now rewrite app_nil_r.
  - rewrite apply_headers_cons, (H tr r (or_introl eq_refl)). cbn [Z.eqb].
    rewrite IH by (intros tr' r' Hr'; apply H; now right).
    now rewrite <- app_assoc.
Qed.

Lemma apply_headers_programs owners : forall tr,
  exists headers,
    snd (apply_headers' owners tr) = tr ++ headers /\
    Forall (fun c => program c = "reuse") headers.
Proof.
  induction owners as [|r owners IH]; intros tr.
  - exists []. simpl. now rewrite app_nil_r.
  - rewrite apply_headers_cons.
    destruct (fst (run_process tr (header_of r)) =? 0)%Z.
    + destruct (IH (tr ++ [header_of r])) as (headers & -> & H).
      exists (header_of r :: headers). rewrite <- app_assoc.
      split; [reflexivity|]. now constructor.
    + exists [header_of r]. split; [reflexivity|]. now repeat constructor.
Qed.

Lemma file_authors_chunk f tr owners :
  fst (file_authors' f tr) = Ok owners -> chunk_of f owners.
Proof.
  intros E. split.
  - now apply (file_authors_files utcoffset set_iter run_process f tr).
  - revert E. unfold file_authors, pbind, lift.
    destruct (git run_process (log_cmd f) tr) as [[out|e] tr'];
      [|discriminate].
    cbn [fst]. unfold file_authors_of_log.
    destruct (parse_log utcoffset out) as [oy|]; [|discriminate].
    cbn [bind]. intros [= <-]. rewrite ownerships_authors.
    apply (group_owners_grouped set_iter oy).
Qed.

(** Lines 77-79 query the files in order, up to the first failure. *)
Lemma collect_owners_course fs : forall owners tr,
  exists n,
    snd (collect_owners' fs owners tr) = tr ++ map log_of (firstn n fs) /\
    forall owners',
      fst (collect_owners' fs owners tr) = Ok owners' ->
      n = List.length fs /\
      exists chunks,
        owners' = owners ++ List.concat chunks /\
        Forall2 chunk_of fs chunks.
Proof.
  induction fs as [|f fs IH]; intros owners tr.
  - exists 0. simpl. rewrite app_nil_r. split; [reflexivity|].
    intros owners' [= <-]. split; [reflexivity|].
    exists []. simpl. rewrite app_nil_r. split; [reflexivity|constructor].
  - rewrite collect_owners_cons.
    pose proof (file_authors_trace utcoffset set_iter run_process f tr) as T.
    pose proof (file_authors_chunk f tr) as F.
    destruct (file_authors' f tr) as [[found|e] tr']; simpl in T, F; subst tr'.
    + destruct (IH (owners ++ found) (tr ++ ["git" :: log_cmd f]))
        as (n & Htr & Hres).
      exists (S n). split.
      * rewrite Htr, <- app_assoc. reflexivity.
      * intros owners' E. destruct (Hres owners' E) as (-> & chunks & -> & H2).
        split; [reflexivity|]. exists (found :: chunks). split.
        -- simpl. now rewrite app_assoc.
        -- constructor; [exact (F found eq_refl)|exact H2].
    + exists 1. split; [now destruct fs|]. discriminate.
Qed.





End Course.



(** X8.  When [reuse addheader] exits with a non-zero status for a record,
    the run ends there with CalledProcessError: the headers of the records
    before it have been applied, and the records after it get none. *)
Theorem failed_header_aborts :
  forall utcoffset set_iter run_process owners tr before r after tr',
    resolve utcoffset set_iter run_process [] = (Ok owners, tr) ->
    owners = before ++ r :: after ->
    apply_headers run_process before tr = (Ok tt, tr') ->
    fst (run_process tr' (header_of r)) <> 0%Z ->
    main utcoffset set_iter run_process []
    = (Raise CalledProcessError, tr' ++ [header_of r]).
Proof.
  intros utcoffset set_iter run_process owners tr before r after tr'
         R -> B F.
  unfold main, pbind. rewrite R, apply_headers_app, B, apply_headers_cons.
  now destruct (Z.eqb_spec (fst (run_process tr' (header_of r))) 0).
Qed.

Lemma failed_header_aborts_witness :
  main utc first_seen read_only_repo []
  = (Raise CalledProcessError,
     [["git"; "ls-files"];
      ["git"; "log"; "--pretty=format:%an%x00%at"; "a.txt"];
      ["git"; "log"; "--pretty=format:%an%x00%at"; "b.txt"];
      ["reuse"; "addheader"; "--copyright=Alvar Penning";
       "--year=2020, 2021"; "--license=GPL-3.0-or-later"; "a.txt"];
      ["reuse"; "addheader"; "--copyright=Alvar Penning";
       "--year=2020, 2021"; "--license=GPL-3.0-or-later"; "b.txt"]]).
Proof.
  apply (failed_header_aborts utc first_seen read_only_repo
           [("a.txt", "Alvar Penning", "2020, 2021");
            ("b.txt", "Alvar Penning", "2020, 2021")]
           [["git"; "ls-files"];
            ["git"; "log"; "--pretty=format:%an%x00%at"; "a.txt"];
            ["git"; "log"; "--pretty=format:%an%x00%at"; "b.txt"]]
           [("a.txt", "Alvar Penning", "2020, 2021")]
           ("b.txt", "Alvar Penning", "2020, 2021") []
           [["git"; "ls-files"];
            ["git"; "log"; "--pretty=format:%an%x00%at"; "a.txt"];
            ["git"; "log"; "--pretty=format:%an%x00%at"; "b.txt"];
            ["reuse"; "addheader"; "--copyright=Alvar Penning";
             "--year=2020, 2021"; "--license=GPL-3.0-or-later"; "a.txt"]]).
  - vm_compute. reflexivity.
  - reflexivity.
  - vm_compute. reflexivity.
  - discriminate.
Defined.

(** X9.  When every header call succeeds, a run whose queries succeeded
    ends normally after exactly one [reuse addheader] per record, in the
    order of the records, each with the record's file, author and years
    and with the default license. *)
Theorem every_record_gets_its_header :
  forall utcoffset set_iter run_process owners tr,
    resolve utcoffset set_iter run_process [] = (Ok owners, tr) ->
    (forall tr' r, In r owners ->
                   fst (run_process tr' (header_of r)) = 0%Z) ->
    main utcoffset set_iter run_process []
    = (Ok tt, tr ++ map header_of owners).
Proof.
  intros utcoffset set_iter run_process owners tr R H.
  unfold main, pbind. rewrite R. now apply apply_headers_all.
Qed.

Lemma every_record_gets_its_header_witness :
  main utc first_seen example_repo []
  = (Ok tt,
     [["git"; "ls-files"];
      ["git"; "log"; "--pretty=format:%an%x00%at"; "main.go"]]
       ++ map header_of [("main.go", "Alvar Penning", "2020, 2021")]).
Proof.
  apply (every_record_gets_its_header utc first_seen example_repo).
  - vm_compute. reflexivity.
  - intros tr' r [<-|[]]. reflexivity.
Defined.

(** X10.  The records of a run come file by file, in the order of the
    selected files: the resolver returns the concatenation of one chunk of
    records per selected file, all for that file and no two for one author,
    after one log query per selected file. *)
Theorem records_come_file_by_file :
  forall utcoffset set_iter run_process owners tr,
    resolve utcoffset set_iter run_process [] = (Ok owners, tr) ->
    tr = ["git"; "ls-files"]
           :: map log_of (select_files (tracked_listing run_process)) /\
    exists chunks,
      owners = List.concat chunks /\
      Forall2 chunk_of (select_files (tracked_listing run_process)) chunks.
Proof.
  intros utcoffset set_iter run_process owners tr.
  unfold resolve, pbind, git, subprocess_run, tracked_listing.
  destruct (run_process [] ["git"; "ls-files"]) as [rc out]. cbn [snd app].
  destruct (rc =? 0)%Z; [|discriminate].
  intros E.
  match type of E with
  | collect_owners ?u ?s ?p ?fs ?o ?t = _ =>
      destruct (collect_owners_course u s p fs o t) as (n & Htr & Hres)
  end.
  rewrite E in Htr, Hres. cbn [fst snd] in *.
  destruct (Hres owners eq_refl) as (-> & chunks & -> & H2).
  rewrite firstn_all in Htr. split; [exact Htr|].
  exists chunks. split; [reflexivity|exact H2].
Qed.

Lemma records_come_file_by_file_witness :
  [["git"; "ls-files"];
   ["git"; "log"; "--pretty=format:%an%x00%at"; "a.txt"];
   ["git"; "log"; "--pretty=format:%an%x00%at"; "b.txt"]]
  = ["git"; "ls-files"]
      :: map log_of (select_files (tracked_listing read_only_repo)) /\
  exists chunks,
    [("a.txt", "Alvar Penning", "2020, 2021");
     ("b.txt", "Alvar Penning", "2020, 2021")] = List.concat chunks /\
    Forall2 chunk_of (select_files (tracked_listing read_only_repo)) chunks.
Proof.
  apply (records_come_file_by_file utc first_seen read_only_repo).
  vm_compute. reflexivity.
Defined.

(** ** The listing of the tracked files, read back *)

Lemma split_one_word s :
  s <> "" -> has_space s = false -> Py.split s = [s].
Proof.
  induction s as [|c s IH]; [easy|]. intros _ H.
  cbn [has_space] in H. apply orb_false_elim in H as [Hc Hs].
  cbn [Py.split]. rewrite Hc. destruct s as [|c' s]; [reflexivity|].
  cbn [has_space] in Hs. apply orb_false_elim in Hs as [Hc' Hs'].
  cbn [Py.starts_word]. rewrite Hc'. cbn [negb].
  rewrite IH; [reflexivity|discriminate|].
  cbn [has_space]. now rewrite Hc', Hs'.
Qed.

(** X11.  When no tracked path is empty, contains whitespace or is printed
    between quotes by git, line 75 reads the listing back as it was
    printed: the selected files are the tracked paths that are not
    excluded, each once per line and in the order of the listing. *)
Theorem listing_is_read_back :
  forall paths,
    Forall (fun p => p <> "" /\ has_space p = false /\
                     needs_quoting p = false) paths ->
    Py.split (ls_files_output paths) = paths /\
    select_files (ls_files_output paths)
    = filter (fun p => negb (Py.contains FILE_IGNORE p)) paths.
Proof.
  intros paths H.
  assert (E : Py.split (ls_files_output paths) = paths).
  { rewrite split_ls_files.
    induction H as [|p paths (Hp & Hs & Hq) _ IH]; [reflexivity|].
    cbn [flat_map].
    now rewrite (ls_files_line_plain p Hq), split_one_word, IH. }
  split; [exact E|]. unfold select_files. now rewrite E.
Qed.

Lemma listing_is_read_back_witness :
  Py.split (ls_files_output ["go.mod"; "cmd/dtnd/main.go"; "LICENSE"])
  = ["go.mod"; "cmd/dtnd/main.go"; "LICENSE"] /\
  select_files (ls_files_output ["go.mod"; "cmd/dtnd/main.go"; "LICENSE"])
  = ["cmd/dtnd/main.go"].
Proof.
  apply (listing_is_read_back ["go.mod"; "cmd/dtnd/main.go"; "LICENSE"]).
  repeat constructor; discriminate.
Defined.

(** A path with a byte above 127 is not read back: what is selected is the
    quoted text git prints for it. *)
Lemma quoted_path_is_not_read_back :
  has_space (String "c" (String (ascii_of_N 233) "")) = false /\
  select_files (ls_files_output [String "c" (String (ascii_of_N 233) "")])
  = [String (ascii_of_N 34)
       (String "c" (String (ascii_of_N 92)
          (String "3" (String "5" (String "1"
             (String (ascii_of_N 34) ""))))))].
Proof. split; reflexivity. Qed.

(** ** The CORE services *)

Lemma length_append (a b : string) :
  String.length (a ++ b) = String.length a + String.length b.
Proof. induction a as [|c a IH]; simpl; [reflexivity|now rewrite IH]. Qed.

Lemma append_cancel_r (s : string) : forall a b : string,
  (a ++ s = b ++ s)%string -> a = b.
Proof.
  induction a as [|c a IH]; intros [|d b] H.
  - reflexivity.
  - apply (f_equal String.length) in H. simpl in H.
    rewrite length_append in H. lia.
  - apply (f_equal String.length) in H. simpl in H.
    rewrite length_append in H. lia.
  - simpl in H. injection H as -> H. f_equal. now apply IH.
Qed.

Lemma config_text_inj n1 n2 :
  DTNService.config_text n1 = DTNService.config_text n2 ->
  node_name n1 = node_name n2.
Proof.
  destruct n1 as [a], n2 as [b].
  unfold DTNService.config_text, DTNService.config_lines, quoted, DQ.
  cbn [String.concat node_name String.append].
  rewrite !append_assoc. cbn [String.append].
  intros H.
  repeat match type of H with
         | String _ _ = String _ _ => injection H as H
         end.
  now apply append_cancel_r in H.
Qed.

(** X12.  [generate_config] never raises; it returns a text for the file
    name dtnd.toml and [None] for every other file name; and the texts of
    two nodes are the same only if the nodes have the same name. *)
Theorem generate_config_names_the_node :
  forall node filename,
    (filename <> "dtnd.toml" ->
     DTNService.generate_config node filename = Ok None) /\
    (filename = "dtnd.toml" ->
     exists text,
       DTNService.generate_config node filename = Ok (Some text) /\
       forall node',
         DTNService.generate_config node' filename = Ok (Some text) ->
         node_name node' = node_name node).
Proof.
  intros node filename. unfold DTNService.generate_config. cbn [Py.index
    DTNService.configs nth_error bind]. split.
  - intros H.
    destruct (String.eqb_spec filename "dtnd.toml");
      [contradiction|reflexivity].
  - intros ->. cbn [String.eqb Ascii.eqb Bool.eqb andb].
    exists (DTNService.config_text node). split; [reflexivity|].
    intros node' H. apply config_text_inj. congruence.
Qed.

Lemma generate_config_names_the_node_witness :
  DTNService.generate_config {| node_name := "n1" |} "dtnd.log" = Ok None /\
  exists text,
    DTNService.generate_config {| node_name := "n1" |} "dtnd.toml"
    = Ok (Some text) /\
    forall node',
      DTNService.generate_config node' "dtnd.toml" = Ok (Some text) ->
      node_name node' = "n1".
Proof.
  split.
  - apply (generate_config_names_the_node {| node_name := "n1" |} "dtnd.log").
    discriminate.
  - apply (generate_config_names_the_node {| node_name := "n1" |} "dtnd.toml").
    reflexivity.
Defined.

(** X13.  For a node whose name has no line feed, the text of dtnd.toml has
    the 28 lines of the template, and its fifth line is the node-id line
    with the endpoint dtn://NAME/ between double quotes: the name adds no
    line and changes no other line. *)
Theorem config_keeps_its_lines :
  forall node,
    mentions LF (node_name node) = false ->
    exists text,
      DTNService.generate_config node "dtnd.toml" = Ok (Some text) /\
      Py.split_on LF text = DTNService.config_lines node /\
      List.length (Py.split_on LF text) = 28 /\
      nth_error (Py.split_on LF text) 4
      = Some ("node-id = " ++ quoted ("dtn://" ++ node_name node ++ "/"))%string.
Proof.
  intros node H. exists (DTNService.config_text node).
  split; [reflexivity|].
  assert (E : Py.split_on LF (DTNService.config_text node)
              = DTNService.config_lines node).
  { unfold DTNService.config_text. apply split_on_concat; [discriminate|].
    unfold DTNService.config_lines.
    repeat (constructor; [try reflexivity|]); [|constructor].
    unfold quoted. rewrite !mentions_append, H. reflexivity. }
  rewrite E. repeat split.
Qed.

Lemma config_keeps_its_lines_witness :
  exists text,
    DTNService.generate_config {| node_name := "n1" |} "dtnd.toml"
    = Ok (Some text) /\
    Py.split_on LF text = DTNService.config_lines {| node_name := "n1" |} /\
    List.length (Py.split_on LF text) = 28 /\
    nth_error (Py.split_on LF text) 4
    = Some ("node-id = " ++ quoted "dtn://n1/")%string.
Proof.
  apply (config_keeps_its_lines {| node_name := "n1" |}). reflexivity.
Defined.

(** X14.  [get_startup] gives two commands, the first the same for every
    node, and the commands of two nodes are the same only if the nodes have
    the same name. *)
Theorem startup_names_the_node :
  forall node node',
    List.length (DTNExchangeService.get_startup node) = 2 /\
    hd_error (DTNExchangeService.get_startup node)
    = Some "mkdir dtn-exchange" /\
    (DTNExchangeService.get_startup node
     = DTNExchangeService.get_startup node' ->
     node_name node = node_name node').
Proof.
  intros [a] [b]. split; [reflexivity|]. split; [reflexivity|].
  unfold DTNExchangeService.get_startup.
  cbn [node_name String.append]. intros [= H].
  now apply append_cancel_r in H.
Qed.

Lemma startup_names_the_node_witness :
  node_name {| node_name := "n1" |} = node_name {| node_name := "n1" |}.
Proof.
  apply (startup_names_the_node {| node_name := "n1" |}
                                {| node_name := "n1" |}).
  reflexivity.
Defined.

(** ** The listing stage and the records of a whole run *)

(** X15.  The listing stage alone decides two runs: when [git ls-files]
    exits with a non-zero status the run ends with CalledProcessError, and
    when every listed name is excluded (or nothing is listed) the run ends
    normally; in both, [git ls-files] is the only command run. *)
Theorem listing_alone_decides :
  forall utcoffset set_iter run_process,
    (fst (run_process [] ["git"; "ls-files"]) <> 0%Z ->
     main utcoffset set_iter run_process []
     = (Raise CalledProcessError, [["git"; "ls-files"]])) /\
    (fst (run_process [] ["git"; "ls-files"]) = 0%Z ->
     (forall w, In w (Py.split (tracked_listing run_process)) ->
                In w FILE_IGNORE) ->
     main utcoffset set_iter run_process [] = (Ok tt, [["git"; "ls-files"]])).
Proof.
  intros utcoffset set_iter run_process.
  unfold main, resolve, pbind, git, subprocess_run, tracked_listing.
  destruct (run_process [] ["git"; "ls-files"]) as [rc out]. cbn [fst snd app].
  split.
  - intros H. now destruct (Z.eqb_spec rc 0).
  - intros -> H. cbn [Z.eqb].
    assert (E : select_files out = []).
    { unfold select_files.
      induction (Py.split out) as [|w l IH]; [reflexivity|]. cbn [filter].
      rewrite (proj2 (contains_In FILE_IGNORE w) (H w (or_introl eq_refl))).
      apply IH. intros w' Hw'. apply H. now right. }
    rewrite E. reflexivity.
Qed.

Lemma listing_alone_decides_witness :
  main utc first_seen no_repo []
  = (Raise CalledProcessError, [["git"; "ls-files"]]) /\
  main utc first_seen excluded_only_repo [] = (Ok tt, [["git"; "ls-files"]]).
Proof.
  split.
  - apply (listing_alone_decides utc first_seen no_repo). discriminate.
  - apply (listing_alone_decides utc first_seen excluded_only_repo).
    + reflexivity.
    + intros w [<-|[<-|[]]]; simpl; tauto.
Defined.

Lemma chunk_keys f chunk :
  chunk_of f chunk -> NoDup (map record_key chunk).
Proof.
  intros [F ND]. induction chunk as [|r chunk IH]; simpl; constructor;
    inversion F as [|? ? Hr F']; inversion ND as [|? ? Hn ND']; subst.
  - intros Hin. apply Hn. apply in_map_iff in Hin as (r' & E & Hr').
    apply in_map_iff. exists r'. split; [|assumption].
    unfold record_key in E. congruence.
  - now apply IH.
Qed.

Lemma chunks_files fs chunks :
  Forall2 chunk_of fs chunks ->
  forall r, In r (List.concat chunks) -> In (owner_file r) fs.
Proof.
  induction 1 as [|f chunk fs chunks [F _] _ IH]; intros r Hr; [easy|].
  simpl in Hr. apply in_app_iff in Hr as [Hr|Hr].
  - left. rewrite Forall_forall in F. symmetry. now apply F.
  - right. now apply IH.
Qed.

Lemma chunks_keys fs chunks :
  Forall2 chunk_of fs chunks -> NoDup fs ->
  NoDup (map record_key (List.concat chunks)).
Proof.
  induction 1 as [|f chunk fs chunks C H2 IH]; intros ND; [constructor|].
  inversion ND as [|? ? Hf ND']; subst. simpl. rewrite map_app.
  apply NoDup_app.
  - now apply (chunk_keys f).
  - now apply IH.
  - intros k Hk Hk'.
    apply in_map_iff in Hk as (r & <- & Hr).
    apply in_map_iff in Hk' as (r' & E & Hr').
    apply (chunks_files _ _ H2) in Hr'.
    destruct C as [F _]. rewrite Forall_forall in F.
    unfold record_key in E. injection E as E _.
    rewrite E, (F r Hr) in Hr'. contradiction.
Qed.

(** X16.  When no name is selected twice, a run has at most one record
    per (file, author): the records the resolver returns have pairwise
    different keys. *)
Theorem one_record_per_key_in_a_run :
  forall utcoffset set_iter run_process owners tr,
    resolve utcoffset set_iter run_process [] = (Ok owners, tr) ->
    NoDup (select_files (tracked_listing run_process)) ->
    NoDup (map record_key owners).
Proof.
  intros utcoffset set_iter run_process owners tr.
  unfold resolve, pbind, git, subprocess_run, tracked_listing.
  destruct (run_process [] ["git"; "ls-files"]) as [rc out]. cbn [snd app].
  destruct (rc =? 0)%Z; [|discriminate].
  intros E ND.
  match type of E with
  | collect_owners ?u ?s ?p ?fs ?o ?t = _ =>
      destruct (collect_owners_course u s p fs o t) as (n & _ & Hres)
  end.
  rewrite E in Hres. cbn [fst] in Hres.
  destruct (Hres owners eq_refl) as (_ & chunks & -> & H2).
  now apply (chunks_keys (select_files out)).
Qed.

Lemma one_record_per_key_in_a_run_witness :
  NoDup (map record_key
             [("a.txt", "Alvar Penning", "2020, 2021");
              ("b.txt", "Alvar Penning", "2020, 2021")]).
Proof.
  apply (one_record_per_key_in_a_run utc first_seen read_only_repo
           [("a.txt", "Alvar Penning", "2020, 2021");
            ("b.txt", "Alvar Penning", "2020, 2021")]
           [["git"; "ls-files"];
            ["git"; "log"; "--pretty=format:%an%x00%at"; "a.txt"];
            ["git"; "log"; "--pretty=format:%an%x00%at"; "b.txt"]]).
  - vm_compute. reflexivity.
  - repeat constructor; simpl; intuition discriminate.
Defined.

(** The hypothesis is needed: a name selected twice, as when a tracked
    path with a space shares a fragment with another path, gives its
    records twice. *)
Lemma shared_fragment_doubles_records :
  fst (resolve utc first_seen
         (fun _ argv =>
            match argv with
            | ["git"; "ls-files"] =>
                (0%Z, ls_files_output ["notes a"; "notes"])
            | _ => (0%Z, git_log_output scenario_history)
            end) [])
  = Ok [("notes", "Alvar Penning", "2020, 2021");
        ("a", "Alvar Penning", "2020, 2021");
        ("notes", "Alvar Penning", "2020, 2021")].
Proof. vm_compute. reflexivity. Qed.
